(** * MoodPaper: the credential store, the Gemini client and the generate handler

    A shallow embedding of [src/utils/safeStorage.ts],
    [src/services/geminiService.ts] and the [handleGenerate] handler of
    [src/App.tsx], with the properties of the specification stated over it.

    Conventions of the embedding.
    - A JavaScript string is a Rocq [string] holding its UTF-8 bytes.  The
      separators and needles the code uses (the comma, ["API Key"]) are
      ASCII, so splitting and searching on bytes agree with the UTF-16
      operations of the engine.
    - A computation that may throw returns a [Completion]; a computation
      over mutable module state is a function from the state to the new
      state and a completion ([Eff]).
    - An [async] function that is awaited at once is an [Eff]; where four
      calls are in flight together ([generateWallpapers]) a call yields a
      [Promise] that records when it settles.
    - [console.warn] and [console.error] write to the developer console
      only and are left out. *)

From Stdlib Require Import ZArith.
From stdpp Require Import base strings gmap list pretty.

(** ** JavaScript prelude *)

Module Js.

(** What a [throw] carries.  [error instanceof Error] holds of the first
    form only; [name] is ["Error"], ["TypeError"], ["SecurityError"], ... *)
Inductive Thrown : Type :=
  | ErrorObj (name message : string)
  | NonError (description : string).

Inductive Completion (A : Type) : Type :=
  | Normal (a : A)
  | Throw (e : Thrown).
Arguments Normal {A} a.
Arguments Throw {A} e.

Definition instanceofError (e : Thrown) : bool :=
  match e with ErrorObj _ _ => true | NonError _ => false end.

Definition message (e : Thrown) : string :=
  match e with ErrorObj _ m => m | NonError _ => "" end.

(** [new Error(msg)] *)
Definition newError (msg : string) : Thrown := ErrorObj "Error" msg.

(** State and exceptions. *)
Definition Eff (S A : Type) : Type := S -> S * Completion A.

Definition ret {S A} (a : A) : Eff S A := fun s => (s, Normal a).

Definition throw {S A} (e : Thrown) : Eff S A := fun s => (s, Throw e).

Definition bind {S A B} (m : Eff S A) (k : A -> Eff S B) : Eff S B :=
  fun s =>
    match m s with
    | (s', Normal a) => k a s'
    | (s', Throw e) => (s', Throw e)
    end.

(** [try { body } catch (e) { handler }]: the state changes made by the
    body before it threw are kept. *)
Definition try_catch {S A} (body : Eff S A) (handler : Thrown -> Eff S A)
  : Eff S A :=
  fun s =>
    match body s with
    | (s', Normal a) => (s', Normal a)
    | (s', Throw e) => handler e s'
    end.

Definition gets {S A} (f : S -> A) : Eff S A := fun s => (s, Normal (f s)).

Definition modify {S} (f : S -> S) : Eff S unit := fun s => (f s, Normal tt).

Notation "'let*' x ':=' c 'in' k" := (bind c (fun x => k))
  (at level 10, x pattern, c at level 100, k at level 200).

(** A [for]/[map] over a list whose body has effects, left to right. *)
Fixpoint mapM {S A B} (f : A -> Eff S B) (l : list A) : Eff S (list B) :=
  match l with
  | [] => ret []
  | a :: l' =>
      let* b := f a in
      let* bs := mapM f l' in
      ret (b :: bs)
  end.

(** *** Strings *)

(** [s.length > 0], which for a string is also its truthiness. *)
Definition nonempty (s : string) : bool :=
  match s with EmptyString => false | String _ _ => true end.

(** Truthiness of an optional string ([undefined] and [""] are falsy). *)
Definition truthy (o : option string) : bool :=
  match o with Some s => nonempty s | None => false end.

(** [o || dflt] on an optional string. *)
Definition or_else (o : option string) (dflt : string) : string :=
  match o with
  | Some s => if nonempty s then s else dflt
  | None => dflt
  end.

(** [s.includes(needle)] *)
Fixpoint includes (needle s : string) : bool :=
  String.prefix needle s ||
  match s with
  | EmptyString => false
  | String _ s' => includes needle s'
  end.

(** [s.split(sep)] for a one-character separator: never the empty list. *)
Fixpoint split (sep : Ascii.ascii) (s : string) : list string :=
  match s with
  | EmptyString => [EmptyString]
  | String c s' =>
      if Ascii.eqb c sep then EmptyString :: split sep s'
      else
        match split sep s' with
        | h :: t => String c h :: t
        | [] => [String c EmptyString]
        end
  end.

(** The last character of a string. *)
Fixpoint last_char (s : string) : option Ascii.ascii :=
  match s with
  | EmptyString => None
  | String c EmptyString => Some c
  | String _ s' => last_char s'
  end.

Definition comma : Ascii.ascii := Ascii.ascii_of_nat 44.
Definition dquote : string := String (Ascii.ascii_of_nat 34) EmptyString.

(** The white space and line terminators that [trim] removes, each as
    its UTF-8 bytes: U+0009..U+000D, U+0020, U+00A0, U+1680,
    U+2000..U+200A, U+2028, U+2029, U+202F, U+205F, U+3000, U+FEFF. *)
Definition ws_tokens : list (list N) :=
  ([ [9]; [10]; [11]; [12]; [13]; [32]; [194; 160]; [225; 154; 128] ]
   ++ map (fun i => [226; 128; 128 + i]) [0; 1; 2; 3; 4; 5; 6; 7; 8; 9; 10]
   ++ [ [226; 128; 168]; [226; 128; 169]; [226; 128; 175];
        [226; 129; 159]; [227; 128; 128]; [239; 187; 191] ])%N.

Definition bytes_of (s : string) : list N :=
  map Ascii.N_of_ascii (String.list_ascii_of_string s).

Definition of_bytes (l : list N) : string :=
  String.string_of_list_ascii (map Ascii.ascii_of_N l).

Fixpoint starts_with (tok l : list N) : bool :=
  match tok, l with
  | [], _ => true
  | t :: tok', b :: l' => N.eqb t b && starts_with tok' l'
  | _ :: _, [] => false
  end.

(** Drops white-space tokens from the front; each round removes at least
    one byte, so [fuel = length l] rounds suffice. *)
Fixpoint strip_front (toks : list (list N)) (fuel : nat) (l : list N)
  : list N :=
  match fuel with
  | O => l
  | S fuel' =>
      match List.find (fun tok => starts_with tok l) toks with
      | Some tok => strip_front toks fuel' (drop (length tok) l)
      | None => l
      end
  end.

Definition trimStart_bytes (l : list N) : list N :=
  strip_front ws_tokens (length l) l.

Definition trimEnd_bytes (l : list N) : list N :=
  rev (strip_front (map (@rev N) ws_tokens) (length l) (rev l)).

(** [s.trim()] *)
Definition trim (s : string) : string :=
  of_bytes (trimEnd_bytes (trimStart_bytes (bytes_of s))).

End Js.

Import Js.

(** ** src/utils/safeStorage.ts *)

Module SafeStorage.

(** The members of [Object.prototype], which a plain object inherits. *)
Definition Object_prototype : list string :=
  [ "constructor"; "__defineGetter__"; "__defineSetter__";
    "hasOwnProperty"; "__lookupGetter__"; "__lookupSetter__";
    "isPrototypeOf"; "propertyIsEnumerable"; "toString"; "valueOf";
    "__proto__"; "toLocaleString" ].

(** What [getItem] can hand back besides [null]: a string, or the member
    of [Object.prototype] of the given name (a function or an object),
    which the declared type [string | null] does not show. *)
Inductive Stored : Type :=
  | Text (s : string)
  | Inherited (name : string).

Section WithBrowser.

(** The browser's persistent store, of which the wrapper knows nothing:
    [P] is its hidden state and each operation may change it and may
    throw. *)
Context {P : Type}.

Record Browser : Type := {
  (** [typeof window !== 'undefined'] *)
  window_defined : bool;
  (** evaluating [window.localStorage] in the guard: throws
      (SecurityError), or yields a truthy or a falsy value *)
  localStorage_guard : Eff P bool;
  (** [window.localStorage.getItem(key)]; [None] is [null] *)
  ls_getItem : string -> Eff P (option string);
  (** [window.localStorage.setItem(key, value)] *)
  ls_setItem : string -> string -> Eff P unit;
  (** [window.localStorage.removeItem(key)] *)
  ls_removeItem : string -> Eff P unit
}.

(** The module state: the browser's store and [memoryStore].
    [memoryStore] is the plain object [{}]: the mapping holds its own
    properties, which are strings because only [setItem] writes them, and
    behind them stand the members of [Object.prototype]. *)
Record Store : Type := {
  persistent : P;
  memoryStore : gmap string string
}.

Definition set_memoryStore (f : gmap string string -> gmap string string)
    (s : Store) : Store :=
  {| persistent := persistent s; memoryStore := f (memoryStore s) |}.

(** Runs a browser operation on the [persistent] component. *)
Definition browser {A} (op : Eff P A) : Eff Store A :=
  fun s =>
    let '(p', c) := op (persistent s) in
    ({| persistent := p'; memoryStore := memoryStore s |}, c).

Variable B : Browser.

(** [typeof window !== 'undefined' && window.localStorage] *)
Definition storage_guard : Eff Store bool :=
  if window_defined B then browser (localStorage_guard B) else ret false.

(** [memoryStore[key]]: the own property, else the inherited member,
    else [undefined] ([None]). *)
Definition memory_get (m : gmap string string) (key : string)
  : option Stored :=
  match m !! key with
  | Some v => Some (Text v)
  | None =>
      if bool_decide (key ∈ Object_prototype) then Some (Inherited key)
      else None
  end.

(** [memoryStore[key] || null]: an empty string is falsy, a function or
    an object is truthy. *)
Definition memory_or_null (m : gmap string string) (key : string)
  : option Stored :=
  match memory_get m key with
  | Some (Text v) => if nonempty v then Some (Text v) else None
  | Some (Inherited name) => Some (Inherited name)
  | None => None
  end.

(** [memoryStore[key] = value].  The assignment makes or updates an own
    property, except at ["__proto__"]: with no own property of that name
    it reaches the setter of [Object.prototype], which ignores a string. *)
Definition memory_set (m : gmap string string) (key value : string)
  : gmap string string :=
  if bool_decide (key = "__proto__") then
    match m !! key with
    | Some _ => <[key := value]> m
    | None => m
    end
  else <[key := value]> m.

(** [getItem]: the [try] block either returns (inner [Some]) or falls
    through to the last line (inner [None]). *)
Definition getItem (key : string) : Eff Store (option Stored) :=
  let* returned :=
    try_catch
      (let* ok := storage_guard in
       if ok : bool then
         let* v := browser (ls_getItem B key) in
         ret (Some (Text <$> v))
       else ret None)
      (fun _ => ret None) in
  match returned with
  | Some v => ret v
  | None =>
      let* m := gets memoryStore in
      ret (memory_or_null m key)
  end.

Definition setItem (key value : string) : Eff Store unit :=
  let* _ :=
    try_catch
      (let* ok := storage_guard in
       if ok : bool then browser (ls_setItem B key value) else ret tt)
      (fun _ => ret tt) in
  modify (set_memoryStore (fun m => memory_set m key value)).

Definition removeItem (key : string) : Eff Store unit :=
  let* _ :=
    try_catch
      (let* ok := storage_guard in
       if ok : bool then browser (ls_removeItem B key) else ret tt)
      (fun _ => ret tt) in
  modify (set_memoryStore (fun m => delete key m)).

End WithBrowser.

Arguments Browser P : clear implicits.
Arguments Store P : clear implicits.

(** A browser whose storage is blocked: every access throws. *)
Definition securityError : Thrown :=
  ErrorObj "SecurityError" "The operation is insecure.".

Definition blocked_browser : Browser unit := {|
  window_defined := true;
  localStorage_guard := throw securityError;
  ls_getItem := fun _ => throw securityError;
  ls_setItem := fun _ _ => throw securityError;
  ls_removeItem := fun _ => throw securityError
|}.

(** A browser whose storage is full: reads work, [setItem] throws.  Its
    state is the stored mapping. *)
Definition quotaError : Thrown :=
  ErrorObj "QuotaExceededError" "The quota has been exceeded.".

Definition full_browser : Browser (gmap string string) := {|
  window_defined := true;
  localStorage_guard := ret true;
  ls_getItem := fun key => gets (fun p => p !! key);
  ls_setItem := fun _ _ => throw quotaError;
  ls_removeItem := fun key => modify (fun p => delete key p)
|}.

(** A browser whose storage works. *)
Definition working_browser : Browser (gmap string string) := {|
  window_defined := true;
  localStorage_guard := ret true;
  ls_getItem := fun key => gets (fun p => p !! key);
  ls_setItem := fun key value => modify (fun p => <[key := value]> p);
  ls_removeItem := fun key => modify (fun p => delete key p)
|}.

Definition empty_store {P} (p : P) : Store P :=
  {| persistent := p; memoryStore := ∅ |}.

End SafeStorage.

(** ** src/types.ts *)

Module Types.

Record GeneratedImage : Type := {
  id : string;
  url : string;          (* Base64 data URL *)
  prompt : string;
  createdAt : Z
}.

End Types.

(** ** The @google/genai SDK, as the service uses it

    The SDK is an external collaborator; only the shapes the service
    reads and writes are described.  Every field the service tests for
    presence is optional here, and so is [content], which the SDK types
    declare optional although the service reads it without a test. *)

Module GenAI.

Record Blob : Type := {
  mimeType : option string;
  data : option string
}.

Record Part : Type := {
  inlineData : option Blob;
  text : option string
}.

Record Content : Type := { parts : option (list Part) }.

Record Candidate : Type := { content : option Content }.

(** [response.text] and [response.candidates] *)
Record GenerateContentResponse : Type := {
  response_text : option string;
  candidates : option (list Candidate)
}.

Inductive ContentUnion : Type :=
  | ContentsText (s : string)
  | ContentsParts (ps : list Part).

(** The argument of [models.generateContent]; [aspectRatio] is
    [config.imageConfig.aspectRatio]. *)
Record GenerateContentParameters : Type := {
  model : string;
  contents : ContentUnion;
  aspectRatio : option string
}.

End GenAI.

(** ** Promises *)

Module Async.

(** A promise, seen from the moment it was created: the tick at which it
    settles and how. *)
Record Promise (A : Type) : Type := {
  settles_at : nat;
  outcome : Completion A
}.
Arguments settles_at {A} _.
Arguments outcome {A} _.

(** A promise that is rejected (or resolved) when it is created. *)
Definition settled {A} (c : Completion A) : Promise A :=
  {| settles_at := 0; outcome := c |}.

(** The code that follows an [await] inside an async function: it runs
    when the awaited promise settles and decides how the function's own
    promise settles. *)
Definition and_then {A B} (p : Promise A) (k : Completion A -> Completion B)
  : Promise B :=
  {| settles_at := settles_at p; outcome := k (outcome p) |}.

(** [await p] where nothing else runs in between. *)
Definition await {S A} (p : Promise A) : Eff S A := fun s => (s, outcome p).

(** The rejection that comes first in time; among rejections of one tick
    the one of the earlier promise. *)
Fixpoint earliest_rejection {A} (ps : list (Promise A))
  : option (nat * Thrown) :=
  match ps with
  | [] => None
  | p :: rest =>
      match outcome p, earliest_rejection rest with
      | Throw e, Some (t, e') =>
          if Nat.leb (settles_at p) t then Some (settles_at p, e)
          else Some (t, e')
      | Throw e, None => Some (settles_at p, e)
      | Normal _, r => r
      end
  end.

Fixpoint fulfilled_values {A} (ps : list (Promise A)) : list A :=
  match ps with
  | [] => []
  | p :: rest =>
      match outcome p with
      | Normal a => a :: fulfilled_values rest
      | Throw _ => fulfilled_values rest
      end
  end.

(** [Promise.all(ps)]: rejected with the first rejection, otherwise
    fulfilled with all the values in the order of [ps]. *)
Definition Promise_all {A} (ps : list (Promise A)) : Promise (list A) :=
  match earliest_rejection ps with
  | Some (t, e) => {| settles_at := t; outcome := Throw e |}
  | None =>
      {| settles_at := foldr Nat.max 0%nat (map settles_at ps);
         outcome := Normal (fulfilled_values ps) |}
  end.

End Async.

Import Async.

(** ** src/services/geminiService.ts *)

Module GeminiService.

Import Types GenAI.

Definition IMAGE_MODEL_NAME : string := "gemini-2.5-flash-image".
Definition TEXT_MODEL_NAME : string := "gemini-2.5-flash".

(** The line break and indentation inside the two template literals. *)
Definition line_break : string :=
  String (Ascii.ascii_of_nat 10) "      ".

Definition creative_prompt_contents (topic : string) : string :=
  "Write a detailed, artistic text-to-image prompt for a phone wallpaper based on the theme: "
  +:+ dquote +:+ topic +:+ dquote +:+ ". " +:+ line_break
  +:+ "The prompt should describe visual elements, lighting, style, and mood. "
  +:+ line_break +:+ "Keep it under 40 words. " +:+ line_break
  +:+ "Output ONLY the prompt text in English, no explanations.".

Definition topic_suggestions_contents : string :=
  "Generate 5 creative, distinct, and aesthetic phone wallpaper themes/topics (e.g., "
  +:+ dquote +:+ "Cyberpunk Rainy City" +:+ dquote +:+ ", "
  +:+ dquote +:+ "Minimalist Zen Garden" +:+ dquote +:+ "). " +:+ line_break
  +:+ "Output ONLY the 5 themes separated by commas. No numbering or bullets. "
  +:+ line_break +:+ "Translate them to Korean.".

(** The error messages of the module. *)
Definition missing_key_message : string :=
  "API Key가 설정되지 않았습니다. 설정 버튼을 눌러 키를 입력해주세요.".
Definition no_image_message : string :=
  "이미지를 생성하지 못했습니다.".
Definition wallpapers_missing_key_message : string :=
  "API Key가 설정되지 않았습니다.".
Definition wallpapers_failure_message : string :=
  "배경화면 생성 중 오류가 발생했습니다. 다시 시도해주세요.".

Definition fallback_topics : list string :=
  ["몽환적인 밤하늘"; "비 오는 도시"; "차분한 숲속"; "미니멀한 기하학";
   "빈티지 필름 감성"].

(** [error instanceof Error && error.message.includes("API Key")]: the
    test by which every [catch] of the module recognises the
    missing-credential condition. *)
Definition mentions_api_key (error : Thrown) : bool :=
  instanceofError error && includes "API Key" (message error).

(** [undefined is not an object]: reading [prop] of [undefined]. *)
Definition read_of_undefined (prop : string) : Thrown :=
  ErrorObj "TypeError"
    ("Cannot read properties of undefined (reading '" +:+ prop +:+ "')").

Section WithEnv.

(** [Client] is an instance of [GoogleGenAI]; [PS] is the provider's
    hidden state. *)
Context {Client PS : Type}.

Record Env : Type := {
  (** [new GoogleGenAI({ apiKey })] *)
  new_GoogleGenAI : string -> Completion Client;
  (** [ai.models.generateContent(params)]: the provider moves on and
      hands back a promise of the response *)
  provider_generateContent :
    Client -> GenerateContentParameters -> PS ->
    PS * Promise GenerateContentResponse;
  (** the value of the n-th evaluation of [Date.now()] *)
  clock : nat -> Z
}.

(** The module variable [genAI], the provider, the requests sent so far
    (oldest first) and the number of clock readings taken. *)
Record World : Type := {
  genAI : option Client;
  provider : PS;
  sent : list GenerateContentParameters;
  clock_reads : nat
}.

Definition set_genAI (g : option Client) (w : World) : World :=
  {| genAI := g; provider := provider w; sent := sent w;
     clock_reads := clock_reads w |}.

Variable E : Env.

(** [Date.now()] *)
Definition Date_now : Eff World Z :=
  fun w =>
    ({| genAI := genAI w; provider := provider w; sent := sent w;
        clock_reads := S (clock_reads w) |},
     Normal (clock E (clock_reads w))).

(** [client.models.generateContent(params)]: the request leaves now. *)
Definition models_generateContent (ai : Client)
    (params : GenerateContentParameters)
  : World -> World * Promise GenerateContentResponse :=
  fun w =>
    let '(ps', reply) := provider_generateContent E ai params (provider w) in
    ({| genAI := genAI w; provider := ps'; sent := sent w ++ [params];
        clock_reads := clock_reads w |},
     reply).

(** [await client.models.generateContent(params)] *)
Definition await_generateContent (ai : Client)
    (params : GenerateContentParameters)
  : Eff World GenerateContentResponse :=
  fun w =>
    let '(w', reply) := models_generateContent ai params w in
    await reply w'.

Definition setApiKey (apiKey : string) : Eff World unit :=
  if negb (nonempty apiKey) then modify (set_genAI None)
  else
    fun w =>
      match new_GoogleGenAI E apiKey with
      | Normal client => modify (set_genAI (Some client)) w
      | Throw e => (w, Throw e)
      end.

(** The request [validateApiKey] probes the key with. *)
Definition validation_request : GenerateContentParameters :=
  {| model := TEXT_MODEL_NAME; contents := ContentsText "test";
     aspectRatio := None |}.

Definition validateApiKey (apiKey : string) : Eff World bool :=
  try_catch
    (let* tempAI := (fun w => (w, new_GoogleGenAI E apiKey)) in
     let* _ := await_generateContent tempAI validation_request in
     ret true)
    (fun error => ret false).

Definition getClient : Eff World Client :=
  fun w =>
    match genAI w with
    | None => throw (newError missing_key_message) w
    | Some client => ret client w
    end.

Definition creative_prompt_request (topic : string)
  : GenerateContentParameters :=
  {| model := TEXT_MODEL_NAME;
     contents := ContentsText (creative_prompt_contents topic);
     aspectRatio := None |}.

Definition topic_suggestions_request : GenerateContentParameters :=
  {| model := TEXT_MODEL_NAME;
     contents := ContentsText topic_suggestions_contents;
     aspectRatio := None |}.

Definition generateCreativePrompt (topic : string) : Eff World string :=
  try_catch
    (let* ai := getClient in
     let* response :=
       await_generateContent ai (creative_prompt_request topic) in
     ret (or_else (trim <$> response_text response) topic))
    (fun error =>
       if mentions_api_key error then throw error
       else ret topic).

Definition generateTopicSuggestions : Eff World (list string) :=
  try_catch
    (let* ai := getClient in
     let* response :=
       await_generateContent ai topic_suggestions_request in
     let text := or_else (response_text response) "" in
     ret (filter (fun t => nonempty t = true) (map trim (split comma text))))
    (fun error =>
       if mentions_api_key error then throw error
       else ret fallback_topics).

(** The parts of the image request. *)
Definition reference_parts (referenceImage : option string) : list Part :=
  match referenceImage with
  | Some r =>
      if nonempty r then
        let base64Data := split comma r !! 1%nat in
        if truthy base64Data then
          [ {| inlineData :=
                 Some {| mimeType := Some "image/png"; data := base64Data |};
               text := None |} ]
        else []
      else []
  | None => []
  end.

Definition enhancedPrompt (prompt : string) (referenceImage : option string)
  : string :=
  if truthy referenceImage then
    "Remix this image based on these instructions: " +:+ prompt
    +:+ ". Ensure high quality, aesthetic, phone wallpaper style."
  else
    prompt
    +:+ ". High quality, aesthetic, 9:16 vertical phone wallpaper, highly detailed, atmospheric.".

Definition image_request (prompt : string) (referenceImage : option string)
  : GenerateContentParameters :=
  {| model := IMAGE_MODEL_NAME;
     contents :=
       ContentsParts
         (reference_parts referenceImage
          ++ [ {| inlineData := None;
                  text := Some (enhancedPrompt prompt referenceImage) |} ]);
     aspectRatio := Some "9:16" |}.

(** The [for] loop over the parts: the data URL of the first part whose
    [inlineData] and [inlineData.data] are truthy. *)
Fixpoint first_inline_image (ps : list Part) : option string :=
  match ps with
  | [] => None
  | part :: rest =>
      match inlineData part with
      | Some blob =>
          if truthy (data blob) then
            Some ("data:" +:+ or_else (mimeType blob) "image/png"
                  +:+ ";base64," +:+ default "" (data blob))
          else first_inline_image rest
      | None => first_inline_image rest
      end
  end.

(** [part.inlineData && part.inlineData.data], the test of the loop. *)
Definition has_inline_data (part : Part) : bool :=
  match inlineData part with
  | Some blob => truthy (data blob)
  | None => false
  end.

(** What [generateSingleImage] does with the response, from the [if] to
    the final [throw]. *)
Definition read_image (response : GenerateContentResponse)
  : Completion string :=
  match candidates response with
  | None => Throw (newError no_image_message)
  | Some [] => Throw (read_of_undefined "content")
  | Some (candidate :: _) =>
      match content candidate with
      | None => Throw (read_of_undefined "parts")
      | Some c =>
          match parts c with
          | None => Throw (newError no_image_message)
          | Some ps =>
              match first_inline_image ps with
              | Some dataUrl => Normal dataUrl
              | None => Throw (newError no_image_message)
              end
          end
      end
  end.

(** [generateSingleImage]: up to the [await] it runs at once, so a
    missing client rejects the promise when it is created and otherwise
    the request is sent; the rest runs when the provider settles.  The
    [catch] block rethrows what it caught. *)
Definition generateSingleImage (prompt : string)
    (referenceImage : option string)
  : World -> World * Promise string :=
  fun w =>
    match getClient w with
    | (w', Throw error) => (w', settled (Throw error))
    | (w', Normal ai) =>
        let '(w'', reply) :=
          models_generateContent ai (image_request prompt referenceImage) w' in
        (w'',
         and_then reply
           (fun c =>
              match c with
              | Normal response =>
                  match read_image response with
                  | Normal dataUrl => Normal dataUrl
                  | Throw error => Throw error
                  end
              | Throw error => Throw error
              end))
    end.

(** [Array(4).fill(null).map(() => generateSingleImage(...))]: the calls
    are made one after the other and none waits for an earlier one. *)
Fixpoint start_all {A B} (f : A -> World -> World * Promise B)
    (l : list A) (w : World) : World * list (Promise B) :=
  match l with
  | [] => (w, [])
  | a :: l' =>
      let '(w1, p) := f a w in
      let '(w2, ps) := start_all f l' w1 in
      (w2, p :: ps)
  end.

(** [results.map((url, index) => ...)] with the effects of its body. *)
Fixpoint mapM_indexed {A B} (f : A -> nat -> Eff World B) (index : nat)
    (l : list A) : Eff World (list B) :=
  match l with
  | [] => ret []
  | a :: l' =>
      let* b := f a index in
      let* bs := mapM_indexed f (S index) l' in
      ret (b :: bs)
  end.

Definition make_image (prompt url : string) (index : nat)
  : Eff World GeneratedImage :=
  let* now := Date_now in
  let* created := Date_now in
  ret {| id := pretty now +:+ "-" +:+ pretty index;
         url := url;
         prompt := prompt;
         createdAt := created |}.

Definition generateWallpapers (prompt : string)
    (referenceImage : option string)
  : Eff World (list GeneratedImage) :=
  fun w =>
    let '(w1, promises) :=
      start_all (fun _ : unit => generateSingleImage prompt referenceImage)
        (replicate 4 tt) w in
    try_catch
      (let* results := await (Promise_all promises) in
       mapM_indexed (make_image prompt) 0 results)
      (fun error =>
         if mentions_api_key error
         then throw (newError wallpapers_missing_key_message)
         else throw (newError wallpapers_failure_message))
      w1.

End WithEnv.

Arguments Env Client PS : clear implicits.
Arguments World Client PS : clear implicits.

End GeminiService.

(** ** src/App.tsx: the generate handler *)

Module App.

Import Types.

(** The state variables of the component that [checkApiKey] and
    [handleGenerate] read or set. *)
Record State : Type := {
  apiKey : string;
  isSettingsOpen : bool;
  prompt : string;
  images : list GeneratedImage;
  isLoading : bool;
  remixSource : option GeneratedImage;
  error : option string
}.

(** What a handler does, in program order: calls of state setters and
    the call of the service.  React applies the setter calls of a handler
    when the handler yields, so the render that follows the start of
    [handleGenerate] shows the state after all the setters before the
    [await]. *)
Inductive Action : Type :=
  | SetIsSettingsOpen (b : bool)
  | SetIsLoading (b : bool)
  | SetError (e : option string)
  | SetImages (l : list GeneratedImage)
  | SetRemixSource (r : option GeneratedImage)
  | CallGenerateWallpapers (prompt : string) (referenceImage : option string).

Definition apply (s : State) (a : Action) : State :=
  match a with
  | SetIsSettingsOpen b =>
      {| apiKey := apiKey s; isSettingsOpen := b; prompt := prompt s;
         images := images s; isLoading := isLoading s;
         remixSource := remixSource s; error := error s |}
  | SetIsLoading b =>
      {| apiKey := apiKey s; isSettingsOpen := isSettingsOpen s;
         prompt := prompt s; images := images s; isLoading := b;
         remixSource := remixSource s; error := error s |}
  | SetError e =>
      {| apiKey := apiKey s; isSettingsOpen := isSettingsOpen s;
         prompt := prompt s; images := images s; isLoading := isLoading s;
         remixSource := remixSource s; error := e |}
  | SetImages l =>
      {| apiKey := apiKey s; isSettingsOpen := isSettingsOpen s;
         prompt := prompt s; images := l; isLoading := isLoading s;
         remixSource := remixSource s; error := error s |}
  | SetRemixSource r =>
      {| apiKey := apiKey s; isSettingsOpen := isSettingsOpen s;
         prompt := prompt s; images := images s; isLoading := isLoading s;
         remixSource := r; error := error s |}
  | CallGenerateWallpapers _ _ => s
  end.

(** The state after a run of actions. *)
Definition run (s : State) (actions : list Action) : State :=
  foldl apply s actions.

Definition unknown_error_message : string :=
  "알 수 없는 오류가 발생했습니다.".

(** [handleGenerate] from its first line to the [await]: the two guards,
    the three setters, the call. *)
Definition handleGenerate_start (s : State) : list Action :=
  if negb (nonempty (apiKey s)) then [SetIsSettingsOpen true]
  else if negb (nonempty (trim (prompt s))) then []
  else
    [ SetIsLoading true; SetError None; SetImages [];
      CallGenerateWallpapers (prompt s) (url <$> remixSource s) ].

(** [handleGenerate] from the [await] on, for the way the call settled.
    [s] is the state of the render in which the handler was created: the
    handler reads [remixSource] from it. *)
Definition handleGenerate_settle (s : State)
    (settled : Completion (list GeneratedImage)) : list Action :=
  match settled with
  | Normal generatedImages =>
      [SetImages generatedImages]
      ++ match remixSource s with
         | Some _ => [SetRemixSource None]
         | None => []
         end
      ++ [SetIsLoading false]
  | Throw err =>
      [ SetError
          (Some (if instanceofError err then message err
                 else unknown_error_message));
        SetIsLoading false ]
  end.

(** The call the start of the handler makes, if it makes one. *)
Fixpoint requested (actions : list Action) : option (string * option string) :=
  match actions with
  | [] => None
  | CallGenerateWallpapers p r :: _ => Some (p, r)
  | _ :: rest => requested rest
  end.

Section WithEnv.

Context {Client PS : Type}.
Variable E : GeminiService.Env Client PS.

(** The whole handler against the service: what it does before the
    request, what it does once the request has settled, and the service
    state it leaves. *)
Definition handleGenerate (s : State) (w : GeminiService.World Client PS)
  : list Action * list Action * GeminiService.World Client PS :=
  let start := handleGenerate_start s in
  match requested start with
  | Some (p, r) =>
      let '(w', settled) := GeminiService.generateWallpapers E p r w in
      (start, handleGenerate_settle s settled, w')
  | None => (start, [], w)
  end.

End WithEnv.

End App.

(** ** Sessions of the Gemini client

    A caller uses the service by calling its functions one after the
    other, each awaited before the next. *)

Module Session.

Import Types GenAI GeminiService.

Inductive Call : Type :=
  | SetApiKey (apiKey : string)
  | ValidateApiKey (apiKey : string)
  | GenerateCreativePrompt (topic : string)
  | GenerateTopicSuggestions
  | GenerateSingleImage (prompt : string) (referenceImage : option string)
  | GenerateWallpapers (prompt : string) (referenceImage : option string).

Inductive Answer : Type :=
  | Done
  | Valid (b : bool)
  | PromptText (s : string)
  | Topics (l : list string)
  | DataUrl (s : string)
  | Images (l : list GeneratedImage).

(** The four operations that need the armed client. *)
Definition is_generation (c : Call) : bool :=
  match c with
  | SetApiKey _ | ValidateApiKey _ => false
  | _ => true
  end.

(** The calls that arm the client: [setApiKey] with a key that is not
    empty. *)
Definition arms (c : Call) : bool :=
  match c with
  | SetApiKey apiKey => nonempty apiKey
  | _ => false
  end.

Section WithEnv.

Context {Client PS : Type}.
Variable E : Env Client PS.

Definition perform (c : Call) : Eff (World Client PS) Answer :=
  match c with
  | SetApiKey apiKey => let* _ := setApiKey E apiKey in ret Done
  | ValidateApiKey apiKey => let* b := validateApiKey E apiKey in ret (Valid b)
  | GenerateCreativePrompt topic =>
      let* s := generateCreativePrompt E topic in ret (PromptText s)
  | GenerateTopicSuggestions =>
      let* l := generateTopicSuggestions E in ret (Topics l)
  | GenerateSingleImage prompt referenceImage =>
      let* u :=
        (fun w =>
           let '(w', p) := generateSingleImage E prompt referenceImage w in
           await p w') in
      ret (DataUrl u)
  | GenerateWallpapers prompt referenceImage =>
      let* l := generateWallpapers E prompt referenceImage in ret (Images l)
  end.

(** The calls of a session in order; a call that throws does not stop
    the session (the caller catches). *)
Fixpoint perform_all (cs : list Call) (w : World Client PS)
  : World Client PS * list (Completion Answer) :=
  match cs with
  | [] => (w, [])
  | c :: cs' =>
      let '(w1, a) := perform c w in
      let '(w2, answers) := perform_all cs' w1 in
      (w2, a :: answers)
  end.

End WithEnv.

End Session.

(** ** Providers for the examples *)

Module Stub.

Import GenAI GeminiService.

Definition provider_error : Thrown := newError "503 Service Unavailable".

(** A client is its key; the provider counts the requests it has served
    and answers the n-th with the n-th entry of a script, rejecting once
    the script is used up. *)
Definition scripted (script : list (Promise GenerateContentResponse))
  : Env string nat := {|
  new_GoogleGenAI := fun apiKey => Normal apiKey;
  provider_generateContent := fun _ _ n =>
    (S n, default (settled (Throw provider_error)) (script !! n));
  clock := fun n => (1700000000000 + Z.of_nat n)%Z
|}.

Definition armed (apiKey : string) : World string nat :=
  {| genAI := Some apiKey; provider := 0%nat; sent := [];
     clock_reads := 0%nat |}.

Definition unarmed : World string nat :=
  {| genAI := None; provider := 0%nat; sent := []; clock_reads := 0%nat |}.

Definition at_tick {A} (t : nat) (c : Completion A) : Promise A :=
  {| settles_at := t; outcome := c |}.

Definition text_response (t : string) : GenerateContentResponse :=
  {| response_text := Some t; candidates := None |}.

Definition image_part (d : string) : Part :=
  {| inlineData := Some {| mimeType := Some "image/png"; data := Some d |};
     text := None |}.

Definition text_part (t : string) : Part :=
  {| inlineData := None; text := Some t |}.

(** A response with one candidate per list of parts. *)
Definition parts_response (cs : list (list Part)) : GenerateContentResponse :=
  {| response_text := None;
     candidates :=
       Some (map (fun ps => {| content := Some {| parts := Some ps |} |}) cs) |}.

End Stub.

(** ** Sessions of the resilient store *)

Module StorageSession.

Import SafeStorage.

(** The storage cannot be reached: there is no [window], or the guard
    [window.localStorage] throws or is falsy, in every state. *)
Definition unreachable {P} (B : Browser P) : Prop :=
  window_defined B = false
  \/ forall p, exists p',
       localStorage_guard B p = (p', Normal false)
       \/ exists e, localStorage_guard B p = (p', Throw e).

Inductive Op : Type :=
  | GetItem (key : string)
  | SetItem (key value : string)
  | RemoveItem (key : string).

(** What an operation does to [memoryStore]. *)
Definition mirror (m : gmap string string) (op : Op) : gmap string string :=
  match op with
  | GetItem _ => m
  | SetItem key value => memory_set m key value
  | RemoveItem key => delete key m
  end.

Section WithBrowser.

Context {P : Type}.
Variable B : Browser P.

Definition perform (op : Op) (s : Store P) : Store P :=
  match op with
  | GetItem key => fst (getItem B key s)
  | SetItem key value => fst (setItem B key value s)
  | RemoveItem key => fst (removeItem B key s)
  end.

(** The operations of a session, one after the other. *)
Definition perform_all (ops : list Op) (s : Store P) : Store P :=
  foldl (fun s op => perform op s) s ops.

End WithBrowser.

End StorageSession.

(** ** src/store.ts: the storage adapter of the zustand store *)

Module ZustandStore.

Import SafeStorage.

Section WithBrowser.

Context {P : Type}.
Variable B : Browser P.

(** [typeof window !== 'undefined' && window.localStorage] *)
Definition storage_guard : Eff P bool :=
  if window_defined B then localStorage_guard B else ret false.

(** [safeLocalStorage.getItem]: [null] when the storage is absent and
    when anything throws. *)
Definition getItem (name : string) : Eff P (option string) :=
  try_catch
    (let* ok := storage_guard in
     if ok : bool then ls_getItem B name else ret None)
    (fun _ => ret None).

Definition setItem (name value : string) : Eff P unit :=
  try_catch
    (let* ok := storage_guard in
     if ok : bool then ls_setItem B name value else ret tt)
    (fun _ => ret tt).

Definition removeItem (name : string) : Eff P unit :=
  try_catch
    (let* ok := storage_guard in
     if ok : bool then ls_removeItem B name else ret tt)
    (fun _ => ret tt).

End WithBrowser.

End ZustandStore.

(** ** The requests a call sends *)

Module Traffic.

Import GenAI GeminiService Session.

(** [!!genAI] *)
Definition is_armed {Client PS : Type} (w : World Client PS) : bool :=
  match genAI w with Some _ => true | None => false end.

(** The calls of [setApiKey]. *)
Definition is_setApiKey (c : Call) : bool :=
  match c with SetApiKey _ => true | _ => false end.

(** The requests a call of the service hands to the provider, by whether
    a client is armed. *)
Definition expected_requests {Client PS : Type} (E : Env Client PS)
    (armed : bool) (c : Call) : list GenerateContentParameters :=
  match c with
  | SetApiKey _ => []
  | ValidateApiKey apiKey =>
      match new_GoogleGenAI E apiKey with
      | Normal _ => [validation_request]
      | Throw _ => []
      end
  | GenerateCreativePrompt topic =>
      if armed then [creative_prompt_request topic] else []
  | GenerateTopicSuggestions =>
      if armed then [topic_suggestions_request] else []
  | GenerateSingleImage prompt referenceImage =>
      if armed then [image_request prompt referenceImage] else []
  | GenerateWallpapers prompt referenceImage =>
      if armed then replicate 4 (image_request prompt referenceImage) else []
  end.

(** Whether a client is armed after a call. *)
Definition armed_after {Client PS : Type} (E : Env Client PS)
    (armed : bool) (c : Call) : bool :=
  match c with
  | SetApiKey apiKey =>
      if nonempty apiKey then
        match new_GoogleGenAI E apiKey with
        | Normal _ => true
        | Throw _ => armed
        end
      else false
  | _ => armed
  end.

(** The requests of a whole session, oldest first. *)
Fixpoint session_requests {Client PS : Type} (E : Env Client PS)
    (armed : bool) (cs : list Call) : list GenerateContentParameters :=
  match cs with
  | [] => []
  | c :: cs' =>
      expected_requests E armed c
      ++ session_requests E (armed_after E armed c) cs'
  end.

End Traffic.

(** ** src/App.tsx and src/components/SettingsModal.tsx: the handlers

    The component [App], its settings dialog, the resilient store and the
    Gemini client as one system.  A handler runs from its first line to
    its last with its [await]s in place; DOM effects (scrolling, focus,
    the download link) are left out. *)

Module Coordinator.

Import Types.

(** The state variables of [App]: those of [App.State] and the rest. *)
Record View : Type := {
  core : App.State;
  isKeyLoaded : bool;
  isGeneratingPrompt : bool;
  isRefreshingTopics : bool;
  selectedImage : option GeneratedImage;
  topics : list string;
  activeTheme : string;
  customTopic : string
}.

(** The state variables of [SettingsModal]. *)
Record Modal : Type := {
  key : string;
  isValidating : bool;
  error : option string
}.

Definition initial_topics : list string :=
  ["신비로운 오로라 숲"; "사이버펑크 네온 시티"; "따뜻한 지브리 감성";
   "미니멀한 파스텔 패턴"; "비 오는 창가 풍경"].

(** The arguments of the [useState] calls. *)
Definition initial_view : View :=
  {| core :=
       {| App.apiKey := ""; App.isSettingsOpen := false; App.prompt := "";
          App.images := []; App.isLoading := false;
          App.remixSource := None; App.error := None |};
     isKeyLoaded := false;
     isGeneratingPrompt := false;
     isRefreshingTopics := false;
     selectedImage := None;
     topics := initial_topics;
     activeTheme := "";
     customTopic := "" |}.

(** [useState(initialKey)] with the [apiKey] of the first render. *)
Definition initial_modal : Modal :=
  {| key := ""; isValidating := false; error := None |}.

(** The setters. *)
Definition with_core (f : App.State -> App.State) (v : View) : View :=
  {| core := f (core v); isKeyLoaded := isKeyLoaded v;
     isGeneratingPrompt := isGeneratingPrompt v;
     isRefreshingTopics := isRefreshingTopics v;
     selectedImage := selectedImage v; topics := topics v;
     activeTheme := activeTheme v; customTopic := customTopic v |}.

Definition setApiKeyState (k : string) : View -> View :=
  with_core (fun s =>
    {| App.apiKey := k; App.isSettingsOpen := App.isSettingsOpen s;
       App.prompt := App.prompt s; App.images := App.images s;
       App.isLoading := App.isLoading s;
       App.remixSource := App.remixSource s; App.error := App.error s |}).

Definition setPrompt (p : string) : View -> View :=
  with_core (fun s =>
    {| App.apiKey := App.apiKey s; App.isSettingsOpen := App.isSettingsOpen s;
       App.prompt := p; App.images := App.images s;
       App.isLoading := App.isLoading s;
       App.remixSource := App.remixSource s; App.error := App.error s |}).

Definition setIsSettingsOpen (b : bool) : View -> View :=
  with_core (fun s => App.apply s (App.SetIsSettingsOpen b)).

Definition setRemixSource (r : option GeneratedImage) : View -> View :=
  with_core (fun s => App.apply s (App.SetRemixSource r)).

Definition setIsKeyLoaded (b : bool) (v : View) : View :=
  {| core := core v; isKeyLoaded := b;
     isGeneratingPrompt := isGeneratingPrompt v;
     isRefreshingTopics := isRefreshingTopics v;
     selectedImage := selectedImage v; topics := topics v;
     activeTheme := activeTheme v; customTopic := customTopic v |}.

Definition setIsGeneratingPrompt (b : bool) (v : View) : View :=
  {| core := core v; isKeyLoaded := isKeyLoaded v;
     isGeneratingPrompt := b;
     isRefreshingTopics := isRefreshingTopics v;
     selectedImage := selectedImage v; topics := topics v;
     activeTheme := activeTheme v; customTopic := customTopic v |}.

Definition setIsRefreshingTopics (b : bool) (v : View) : View :=
  {| core := core v; isKeyLoaded := isKeyLoaded v;
     isGeneratingPrompt := isGeneratingPrompt v;
     isRefreshingTopics := b;
     selectedImage := selectedImage v; topics := topics v;
     activeTheme := activeTheme v; customTopic := customTopic v |}.

Definition setSelectedImage (i : option GeneratedImage) (v : View) : View :=
  {| core := core v; isKeyLoaded := isKeyLoaded v;
     isGeneratingPrompt := isGeneratingPrompt v;
     isRefreshingTopics := isRefreshingTopics v;
     selectedImage := i; topics := topics v;
     activeTheme := activeTheme v; customTopic := customTopic v |}.

Definition setTopics (l : list string) (v : View) : View :=
  {| core := core v; isKeyLoaded := isKeyLoaded v;
     isGeneratingPrompt := isGeneratingPrompt v;
     isRefreshingTopics := isRefreshingTopics v;
     selectedImage := selectedImage v; topics := l;
     activeTheme := activeTheme v; customTopic := customTopic v |}.

Definition setActiveTheme (t : string) (v : View) : View :=
  {| core := core v; isKeyLoaded := isKeyLoaded v;
     isGeneratingPrompt := isGeneratingPrompt v;
     isRefreshingTopics := isRefreshingTopics v;
     selectedImage := selectedImage v; topics := topics v;
     activeTheme := t; customTopic := customTopic v |}.

Definition setCustomTopic (t : string) (v : View) : View :=
  {| core := core v; isKeyLoaded := isKeyLoaded v;
     isGeneratingPrompt := isGeneratingPrompt v;
     isRefreshingTopics := isRefreshingTopics v;
     selectedImage := selectedImage v; topics := topics v;
     activeTheme := activeTheme v; customTopic := t |}.

Definition setKey (k : string) (m : Modal) : Modal :=
  {| key := k; isValidating := isValidating m; error := error m |}.

Definition setIsValidating (b : bool) (m : Modal) : Modal :=
  {| key := key m; isValidating := b; error := error m |}.

Definition setError (e : option string) (m : Modal) : Modal :=
  {| key := key m; isValidating := isValidating m; error := e |}.

Definition STORAGE_KEY : string := "moodpaper_api_key".
Definition empty_key_message : string := "API Key를 입력해주세요.".
Definition invalid_key_message : string :=
  "유효하지 않은 API Key입니다. 연결할 수 없습니다.".

(** What a [setTimeout] of the handlers will do to the state when it
    fires: only [loadKey]'s changes the state. *)
Inductive Timer : Type :=
  | OpenSettingsLater.

Section WithWorld.

Context {P Client PS : Type}.
Variable B : SafeStorage.Browser P.
Variable E : GeminiService.Env Client PS.

Record System : Type := {
  view : View;
  modal : Modal;
  storage : SafeStorage.Store P;
  service : GeminiService.World Client PS;
  timers : list Timer
}.

Definition on_view (f : View -> View) : Eff System unit :=
  modify (fun sys =>
    {| view := f (view sys); modal := modal sys; storage := storage sys;
       service := service sys; timers := timers sys |}).

Definition on_modal (f : Modal -> Modal) : Eff System unit :=
  modify (fun sys =>
    {| view := view sys; modal := f (modal sys); storage := storage sys;
       service := service sys; timers := timers sys |}).

Definition in_storage {A} (m : Eff (SafeStorage.Store P) A) : Eff System A :=
  fun sys =>
    let '(st, c) := m (storage sys) in
    ({| view := view sys; modal := modal sys; storage := st;
        service := service sys; timers := timers sys |}, c).

Definition in_service {A} (m : Eff (GeminiService.World Client PS) A)
  : Eff System A :=
  fun sys =>
    let '(w, c) := m (service sys) in
    ({| view := view sys; modal := modal sys; storage := storage sys;
        service := w; timers := timers sys |}, c).

Definition setTimeout (t : Timer) : Eff System unit :=
  modify (fun sys =>
    {| view := view sys; modal := modal sys; storage := storage sys;
       service := service sys; timers := timers sys ++ [t] |}).

(** The body of the effect that runs after the first render.  The key
    it reads, ["moodpaper_api_key"], is not a member of
    [Object.prototype], so the store hands back a string or [null] and
    the case of an inherited member does not arise. *)
Definition loadKey : Eff System unit :=
  let* savedKey := in_storage (SafeStorage.getItem B STORAGE_KEY) in
  let* _ :=
    match savedKey with
    | Some (SafeStorage.Text k) =>
        if nonempty k then
          let* _ := on_view (setApiKeyState k) in
          in_service (GeminiService.setApiKey E k)
        else setTimeout OpenSettingsLater
    | Some (SafeStorage.Inherited _) => ret tt
    | None => setTimeout OpenSettingsLater
    end in
  on_view (setIsKeyLoaded true).

Definition handleKeySave (newKey : string) : Eff System unit :=
  let* _ := on_view (setApiKeyState newKey) in
  in_service (GeminiService.setApiKey E newKey).

Definition checkApiKey : Eff System bool :=
  let* v := gets view in
  if negb (nonempty (App.apiKey (core v))) then
    let* _ := on_view (setIsSettingsOpen true) in
    ret false
  else ret true.

(** [handleGenerate], run from its first line to its last. *)
Definition handleGenerate : Eff System unit :=
  fun sys =>
    let '(start, settle, w) :=
      App.handleGenerate E (core (view sys)) (service sys) in
    ({| view :=
          with_core (fun s => App.run (App.run s start) settle) (view sys);
        modal := modal sys; storage := storage sys; service := w;
        timers := timers sys |},
     Normal tt).

Definition handleRemixStart (image : GeneratedImage) : Eff System unit :=
  let* _ := on_view (setRemixSource (Some image)) in
  let* _ := on_view (setPrompt (prompt image)) in
  on_view (setSelectedImage None).

Definition clearRemix : Eff System unit :=
  let* _ := on_view (setRemixSource None) in
  on_view (setPrompt "").

(** The [try]/[catch]/[finally] that the three handlers which write a
    prompt have in common; the [catch] only logs. *)
Definition craft (topic : string) : Eff System unit :=
  let* _ := on_view (setIsGeneratingPrompt true) in
  let* _ :=
    try_catch
      (let* newPrompt :=
         in_service (GeminiService.generateCreativePrompt E topic) in
       on_view (setPrompt newPrompt))
      (fun _ => ret tt) in
  on_view (setIsGeneratingPrompt false).

(** [topic] is [e.target.value]. *)
Definition handlePresetTopicSelect (topic : string) : Eff System unit :=
  let* ok := checkApiKey in
  if negb ok then ret tt
  else if negb (nonempty topic) then ret tt
  else
    let* _ := on_view (setActiveTheme topic) in
    let* _ := on_view (setCustomTopic "") in
    craft topic.

Definition handleCustomTopicSubmit : Eff System unit :=
  let* v := gets view in
  let* ok := checkApiKey in
  if negb ok then ret tt
  else if negb (nonempty (trim (customTopic v))) then ret tt
  else
    let* _ := on_view (setActiveTheme (customTopic v)) in
    craft (customTopic v).

Definition refreshPrompt : Eff System unit :=
  let* v := gets view in
  let* ok := checkApiKey in
  if negb ok then ret tt
  else if negb (nonempty (activeTheme v)) then ret tt
  else craft (activeTheme v).

Definition refreshTopics : Eff System unit :=
  let* ok := checkApiKey in
  if negb ok then ret tt
  else
    let* _ := on_view (setIsRefreshingTopics true) in
    let* _ :=
      try_catch
        (let* newTopics :=
           in_service (GeminiService.generateTopicSuggestions E) in
         let* _ := on_view (setTopics newTopics) in
         on_view (setActiveTheme ""))
        (fun _ => ret tt) in
    on_view (setIsRefreshingTopics false).

(** [SettingsModal]'s [handleSave], with the two callbacks it gets as
    props. *)
Definition handleSave (onSave : string -> Eff System unit)
    (onClose : Eff System unit) : Eff System unit :=
  let* m := gets modal in
  if negb (nonempty (trim (key m))) then
    on_modal (setError (Some empty_key_message))
  else
    let* _ := on_modal (setIsValidating true) in
    let* _ := on_modal (setError None) in
    let* isValid :=
      in_service (GeminiService.validateApiKey E (trim (key m))) in
    let* _ := on_modal (setIsValidating false) in
    if isValid : bool then
      let* _ :=
        in_storage (SafeStorage.setItem B STORAGE_KEY (trim (key m))) in
      let* _ := onSave (trim (key m)) in
      onClose
    else on_modal (setError (Some invalid_key_message)).

(** What the user and the runtime can make happen. *)
Inductive Event : Type :=
  | Mount                              (* the effect after the first render *)
  | TimersFire                         (* the pending timeouts elapse *)
  | OpenSettings                       (* the settings button *)
  | CloseSettings                      (* the dialog's close button *)
  | TypeKey (k : string)               (* the key field of the dialog *)
  | Save                               (* the dialog's save button *)
  | SelectPreset (topic : string)      (* the topic select *)
  | TypeCustomTopic (t : string)       (* the custom topic field *)
  | SubmitCustomTopic
  | RefreshPrompt
  | RefreshTopics
  | TypePrompt (p : string)            (* the prompt field *)
  | Generate                           (* the form's submit *)
  | SelectImage (image : GeneratedImage)
  | ClosePreview
  | RemixStart (image : GeneratedImage)
  | ClearRemix.

Definition fire (t : Timer) : View -> View :=
  match t with
  | OpenSettingsLater => setIsSettingsOpen true
  end.

Definition fire_timers : Eff System unit :=
  modify (fun sys =>
    {| view := foldl (fun v t => fire t v) (view sys) (timers sys);
       modal := modal sys; storage := storage sys; service := service sys;
       timers := [] |}).

Definition handle (ev : Event) : Eff System unit :=
  match ev with
  | Mount => loadKey
  | TimersFire => fire_timers
  | OpenSettings => on_view (setIsSettingsOpen true)
  | CloseSettings => on_view (setIsSettingsOpen false)
  | TypeKey k => on_modal (setKey k)
  | Save => handleSave handleKeySave (on_view (setIsSettingsOpen false))
  | SelectPreset topic => handlePresetTopicSelect topic
  | TypeCustomTopic t => on_view (setCustomTopic t)
  | SubmitCustomTopic => handleCustomTopicSubmit
  | RefreshPrompt => refreshPrompt
  | RefreshTopics => refreshTopics
  | TypePrompt p => on_view (setPrompt p)
  | Generate => handleGenerate
  | SelectImage image => on_view (setSelectedImage (Some image))
  | ClosePreview => on_view (setSelectedImage None)
  | RemixStart image => handleRemixStart image
  | ClearRemix => clearRemix
  end.

(** Events one after the other; a handler that throws leaves the state
    it reached and the next event is handled all the same. *)
Definition handle_all (evs : list Event) (sys : System) : System :=
  foldl (fun sys ev => fst (handle ev sys)) sys evs.

(** The system before the first render's effect, in a fresh page. *)
Definition boot (p : P) (ps : PS) : System :=
  {| view := initial_view; modal := initial_modal;
     storage := SafeStorage.empty_store p;
     service :=
       {| GeminiService.genAI := None; GeminiService.provider := ps;
          GeminiService.sent := []; GeminiService.clock_reads := 0%nat |};
     timers := [] |}.

End WithWorld.

Arguments System P Client PS : clear implicits.

End Coordinator.

(** ** Conditions on the system *)

Module Conditions.

Import Coordinator.

(** The SDK makes a client of every key that is not empty. *)
Definition constructs_every_key {Client PS : Type}
    (E : GeminiService.Env Client PS) : Prop :=
  forall k, k <> "" -> exists client,
    GeminiService.new_GoogleGenAI E k = Normal client.

(** The key the application shows and the client the service holds
    agree: no key and no client, or a key and the client made of it. *)
Definition credentials_agree {P Client PS : Type}
    (E : GeminiService.Env Client PS) (sys : System P Client PS) : Prop :=
  match GeminiService.genAI (service sys) with
  | None => App.apiKey (core (view sys)) = ""
  | Some client =>
      App.apiKey (core (view sys)) <> ""
      /\ GeminiService.new_GoogleGenAI E (App.apiKey (core (view sys)))
         = Normal client
  end.

(** No busy flag is raised. *)
Definition idle {P Client PS : Type} (sys : System P Client PS) : Prop :=
  App.isLoading (core (view sys)) = false
  /\ isGeneratingPrompt (view sys) = false
  /\ isRefreshingTopics (view sys) = false
  /\ isValidating (modal sys) = false.

End Conditions.

(** ** Proofs: the resilient store *)

Section SafeStorageFacts.

Import SafeStorage.

Context {P : Type}.
Variable B : Browser P.

(** The [try] block of each operation is closed: whatever the browser
    does, the block hands over a normal completion. *)
Lemma guarded_block_normal {A} (op : Eff P A) (dflt : A) (s : Store P) :
  exists s' a,
    try_catch
      (let* ok := storage_guard B in
       if ok : bool then browser op else ret dflt)
      (fun _ => ret dflt) s = (s', Normal a)
    /\ memoryStore s' = memoryStore s.
Proof.
  unfold try_catch, bind, storage_guard, browser, ret.
  destruct (window_defined B); [| by eauto].
  destruct (localStorage_guard B (persistent s)) as [p1 [[|]|e]]; simpl;
    [| by eauto | by eauto].
  destruct (op p1) as [p2 [a|e]]; simpl; eauto.
Qed.

Lemma getItem_normal (key : string) (s : Store P) :
  exists s' r, getItem B key s = (s', Normal r).
Proof.
  unfold getItem, bind at 1.
  destruct (guarded_block_normal
              (let* v := ls_getItem B key in ret (Some (Text <$> v))) None s)
    as (s1 & r & Hblock & _).
  (* the block of [getItem] is the guarded block with the read inside *)
  assert (Hsame :
    try_catch
      (let* ok := storage_guard B in
       if ok : bool then
         let* v := browser (ls_getItem B key) in ret (Some (Text <$> v))
       else ret None)
      (fun _ => ret None) s = (s1, Normal r)).
  { rewrite <- Hblock. unfold try_catch, bind, browser, ret.
    destruct (storage_guard B s) as [s0 [[|]|e]]; try reflexivity.
    simpl. destruct (ls_getItem B key (persistent s0)) as [p [v|e]];
      reflexivity. }
  rewrite Hsame. destruct r as [v|]; unfold ret, bind, gets; eauto.
Qed.

Lemma setItem_normal (key value : string) (s : Store P) :
  exists s', setItem B key value s = (s', Normal tt)
    /\ memoryStore s' = memory_set (memoryStore s) key value.
Proof.
  unfold setItem, bind at 1.
  destruct (guarded_block_normal (ls_setItem B key value) tt s)
    as (s1 & [] & -> & Hmem).
  unfold modify, set_memoryStore. eexists; split; [reflexivity |].
  simpl. by rewrite Hmem.
Qed.

(** Away from ["__proto__"] an assignment is an insertion. *)
Lemma memory_set_insert (m : gmap string string) (key value : string) :
  key <> "__proto__" -> memory_set m key value = <[key := value]> m.
Proof. intros H. unfold memory_set. by rewrite bool_decide_eq_false_2. Qed.

(** An assignment leaves the other keys as they are. *)
Lemma memory_set_other (m : gmap string string) (key value key' : string) :
  key' <> key -> memory_set m key value !! key' = m !! key'.
Proof.
  intros H. unfold memory_set.
  destruct (bool_decide (key = "__proto__")); [destruct (m !! key) |];
    by rewrite ?lookup_insert_ne.
Qed.

(** The key of an assignment that took effect holds the value. *)
Lemma memory_set_same (m : gmap string string) (key value : string) :
  key <> "__proto__" \/ is_Some (m !! key) ->
  memory_set m key value !! key = Some value.
Proof.
  intros H. unfold memory_set.
  destruct (bool_decide_reflect (key = "__proto__")) as [Heq|];
    [| by rewrite lookup_insert_eq].
  destruct H as [H | [v Hv]]; [done |].
  rewrite Hv. by rewrite lookup_insert_eq.
Qed.

(** For a key that is no member of [Object.prototype], [memoryStore]
    answers with its own property or [null]. *)
Lemma memory_or_null_plain (m : gmap string string) (key : string) :
  key ∉ Object_prototype ->
  memory_or_null m key
  = match m !! key with
    | Some v => if nonempty v then Some (Text v) else None
    | None => None
    end.
Proof.
  intros H. unfold memory_or_null, memory_get.
  destruct (m !! key); [done |]. by rewrite bool_decide_eq_false_2.
Qed.

(** [getItem] hands back an inherited member only for a key that names
    one. *)
Lemma getItem_inherited (key name : string) (s : Store P) :
  snd (getItem B key s) = Normal (Some (Inherited name)) ->
  key ∈ Object_prototype.
Proof.
  unfold getItem, bind, try_catch, storage_guard, browser, ret, gets.
  assert (Hmem : Normal (memory_or_null (memoryStore s) key)
                 = Normal (Some (Inherited name)) ->
                 key ∈ Object_prototype).
  { unfold memory_or_null, memory_get. destruct (memoryStore s !! key).
    - by destruct (nonempty _).
    - destruct (bool_decide_reflect (key ∈ Object_prototype)); done. }
  destruct (window_defined B); [| exact Hmem].
  destruct (localStorage_guard B (persistent s)) as [p1 [[|]|e]]; simpl;
    [| exact Hmem | exact Hmem].
  destruct (ls_getItem B key p1) as [p2 [[v|]|e]]; simpl;
    [done | done | exact Hmem].
Qed.

Lemma removeItem_normal (key : string) (s : Store P) :
  exists s', removeItem B key s = (s', Normal tt)
    /\ memoryStore s' = delete key (memoryStore s).
Proof.
  unfold removeItem, bind at 1.
  destruct (guarded_block_normal (ls_removeItem B key) tt s)
    as (s1 & [] & -> & Hmem).
  unfold modify, set_memoryStore. eexists; split; [reflexivity |].
  simpl. by rewrite Hmem.
Qed.

(** When the guard throws, [getItem] answers from [memoryStore]. *)
Lemma getItem_blocked (key : string) (s : Store P) p e :
  window_defined B = true ->
  localStorage_guard B (persistent s) = (p, Throw e) ->
  snd (getItem B key s) = Normal (memory_or_null (memoryStore s) key).
Proof.
  intros Hwin Hguard.
  unfold getItem, bind, try_catch, storage_guard, browser, ret, gets.
  rewrite Hwin, Hguard. reflexivity.
Qed.

End SafeStorageFacts.

Section ReadAfterWrite.

Import SafeStorage.

Context {P : Type}.
Variable B : Browser P.

(** With a store that cannot be reached at all, a read after a write
    that took effect answers from [memoryStore]: the written value when
    it is not empty, [null] when it is the empty string. *)
Lemma getItem_after_setItem_unreachable (key value : string) (s : Store P) :
  (forall p, exists p' e, localStorage_guard B p = (p', Throw e)) ->
  key <> "__proto__" \/ is_Some (memoryStore s !! key) ->
  snd (getItem B key (fst (setItem B key value s)))
  = Normal (if nonempty value then Some (Text value) else None).
Proof.
  intros Hthrows Hkey.
  destruct (setItem_normal B key value s) as (s1 & -> & Hmem). simpl.
  assert (Hread : snd (getItem B key s1)
                  = Normal (memory_or_null (memoryStore s1) key)).
  { destruct (window_defined B) eqn:Hwin.
    - destruct (Hthrows (persistent s1)) as (p' & e & Hguard).
      by eapply getItem_blocked.
    - unfold getItem, bind, try_catch, storage_guard, ret, gets.
      by rewrite Hwin. }
  rewrite Hread, Hmem. unfold memory_or_null, memory_get.
  by rewrite memory_set_same.
Qed.

(** The one key a plain object does not store: with no own property of
    the name, a write to ["__proto__"] is ignored and a read hands back
    the inherited object. *)
Lemma getItem_after_setItem_proto (value : string) (s : Store P) :
  (forall p, exists p' e, localStorage_guard B p = (p', Throw e)) ->
  memoryStore s !! "__proto__" = None ->
  snd (getItem B "__proto__" (fst (setItem B "__proto__" value s)))
  = Normal (Some (Inherited "__proto__")).
Proof.
  intros Hthrows Hown.
  destruct (setItem_normal B "__proto__" value s) as (s1 & -> & Hmem). simpl.
  assert (Hread : snd (getItem B "__proto__" s1)
                  = Normal (memory_or_null (memoryStore s1) "__proto__")).
  { destruct (window_defined B) eqn:Hwin.
    - destruct (Hthrows (persistent s1)) as (p' & e & Hguard).
      by eapply getItem_blocked.
    - unfold getItem, bind, try_catch, storage_guard, ret, gets.
      by rewrite Hwin. }
  rewrite Hread, Hmem. unfold memory_set.
  rewrite bool_decide_eq_true_2 by done. rewrite Hown.
  unfold memory_or_null, memory_get. by rewrite Hown.
Qed.

End ReadAfterWrite.

(** C9. Whatever the browser's storage does, throwing included, none of
    [getItem], [setItem] and [removeItem] throws: each completes
    normally, for every key, value and state. *)
Theorem safeStorage_operations_never_throw {P : Type}
    (B : SafeStorage.Browser P) (key value : string)
    (s : SafeStorage.Store P) :
  (exists s' r, SafeStorage.getItem B key s = (s', Normal r)) /\
  (exists s', SafeStorage.setItem B key value s = (s', Normal tt)) /\
  (exists s', SafeStorage.removeItem B key s = (s', Normal tt)).
Proof.
  split; [apply getItem_normal |].
  split.
  - destruct (setItem_normal B key value s) as (s' & H & _). eauto.
  - destruct (removeItem_normal B key s) as (s' & H & _). eauto.
Qed.

(** C1. The claim is that [getItem] after [setItem] gives back the value
    written, also when every storage operation throws.  At the empty
    string the code does not: with the storage blocked, for every key and
    every earlier content of [memoryStore], writing [""] and reading the
    key back yields [null], because [memoryStore[key] || null] takes the
    empty string for a missing entry.  The one key that reads otherwise
    is ["__proto__"], which a plain object does not store: there the read
    hands back the inherited object, again not the value written. *)
Theorem blocked_storage_reads_empty_value_as_null
    (key : string) (m : gmap string string) :
  let s := {| SafeStorage.persistent := tt; SafeStorage.memoryStore := m |} in
  let read_back :=
    snd (SafeStorage.getItem SafeStorage.blocked_browser key
           (fst (SafeStorage.setItem SafeStorage.blocked_browser key "" s))) in
  (key <> "__proto__" \/ is_Some (m !! key) -> read_back = Normal None) /\
  (key = "__proto__" -> m !! key = None ->
   read_back = Normal (Some (SafeStorage.Inherited "__proto__"))).
Proof.
  intros s read_back.
  assert (Hblocked : forall p : unit, exists p' e,
            SafeStorage.localStorage_guard SafeStorage.blocked_browser p
            = (p', Throw e)).
  { intros []. by exists tt, SafeStorage.securityError. }
  split.
  - intros Hkey. unfold read_back.
    by rewrite (getItem_after_setItem_unreachable
                  SafeStorage.blocked_browser key "" s Hblocked Hkey).
  - intros -> Hown. unfold read_back.
    by rewrite (getItem_after_setItem_proto
                  SafeStorage.blocked_browser "" s Hblocked Hown).
Qed.

Lemma blocked_storage_reads_empty_value_as_null_witness :
  snd (SafeStorage.getItem SafeStorage.blocked_browser "moodpaper_api_key"
         (fst (SafeStorage.setItem SafeStorage.blocked_browser
                 "moodpaper_api_key" "" (SafeStorage.empty_store tt))))
  = Normal None.
Proof.
  apply (proj1 (blocked_storage_reads_empty_value_as_null
                  "moodpaper_api_key" ∅)).
  left. discriminate.
Defined.

(** The same read after write with the claim's other inputs, for
    comparison: a value that is not empty comes back from a blocked
    store, and the empty string comes back from a working one. *)
Example blocked_storage_reads_back_key :
  snd (SafeStorage.getItem SafeStorage.blocked_browser "moodpaper_api_key"
         (fst (SafeStorage.setItem SafeStorage.blocked_browser
                 "moodpaper_api_key" "abc123" (SafeStorage.empty_store tt))))
  = Normal (Some (SafeStorage.Text "abc123")).
Proof. vm_compute. reflexivity. Qed.

Example working_storage_reads_back_empty_value :
  snd (SafeStorage.getItem SafeStorage.working_browser "k"
         (fst (SafeStorage.setItem SafeStorage.working_browser "k" ""
                 (SafeStorage.empty_store ∅))))
  = Normal (Some (SafeStorage.Text "")).
Proof. vm_compute. reflexivity. Qed.

(** A store that is full (reads work, writes throw): the value written is
    kept in [memoryStore] only, and [getItem] returns the miss of the
    persistent store without looking there. *)
Example full_storage_reads_null :
  snd (SafeStorage.getItem SafeStorage.full_browser "k"
         (fst (SafeStorage.setItem SafeStorage.full_browser "k" "v"
                 (SafeStorage.empty_store ∅))))
  = Normal None.
Proof. vm_compute. reflexivity. Qed.

(** ** Proofs: the Gemini client without a credential *)

Section Unarmed.

Import Types GenAI GeminiService.

Context {Client PS : Type}.
Variable E : Env Client PS.
Implicit Type w : World Client PS.

Lemma getClient_unarmed w :
  genAI w = None -> getClient w = (w, Throw (newError missing_key_message)).
Proof. intros H. unfold getClient. by rewrite H. Qed.

Lemma getClient_armed w ai :
  genAI w = Some ai -> getClient w = (w, Normal ai).
Proof. intros H. unfold getClient. by rewrite H. Qed.

Lemma missing_key_error_mentions_api_key :
  mentions_api_key (newError missing_key_message) = true.
Proof. vm_compute. reflexivity. Qed.

Lemma generateCreativePrompt_unarmed w topic :
  genAI w = None ->
  generateCreativePrompt E topic w = (w, Throw (newError missing_key_message)).
Proof.
  intros H. unfold generateCreativePrompt, try_catch, bind.
  rewrite (getClient_unarmed _ H), missing_key_error_mentions_api_key.
  reflexivity.
Qed.

Lemma generateTopicSuggestions_unarmed w :
  genAI w = None ->
  generateTopicSuggestions E w = (w, Throw (newError missing_key_message)).
Proof.
  intros H. unfold generateTopicSuggestions, try_catch, bind.
  rewrite (getClient_unarmed _ H), missing_key_error_mentions_api_key.
  reflexivity.
Qed.

Lemma generateSingleImage_unarmed w prompt referenceImage :
  genAI w = None ->
  generateSingleImage E prompt referenceImage w
  = (w, settled (Throw (newError missing_key_message))).
Proof.
  intros H. unfold generateSingleImage. by rewrite (getClient_unarmed _ H).
Qed.

Lemma generateWallpapers_unarmed w prompt referenceImage :
  genAI w = None ->
  generateWallpapers E prompt referenceImage w
  = (w, Throw (newError wallpapers_missing_key_message)).
Proof.
  intros H. unfold generateWallpapers. simpl start_all.
  rewrite !(generateSingleImage_unarmed _ _ _ H).
  unfold try_catch, bind, await, Promise_all. simpl.
  reflexivity.
Qed.

End Unarmed.

(** ** Proofs: validation of a key *)

Section Validation.

Import Types GenAI GeminiService.

Context {Client PS : Type}.
Variable E : Env Client PS.
Implicit Type w : World Client PS.

(** Sending a request touches the provider and the log only. *)
Lemma models_generateContent_genAI ai params w :
  genAI (fst (models_generateContent E ai params w)) = genAI w.
Proof.
  unfold models_generateContent.
  by destruct (provider_generateContent E ai params (provider w)).
Qed.

Lemma await_generateContent_spec ai params w :
  await_generateContent E ai params w
  = (fst (models_generateContent E ai params w),
     outcome (snd (provider_generateContent E ai params (provider w)))).
Proof.
  unfold await_generateContent, models_generateContent, await.
  by destruct (provider_generateContent E ai params (provider w)).
Qed.

Lemma validateApiKey_spec apiKey w :
  exists w' b,
    validateApiKey E apiKey w = (w', Normal b)
    /\ genAI w' = genAI w
    /\ (b = true <->
        exists tempAI response,
          new_GoogleGenAI E apiKey = Normal tempAI
          /\ outcome (snd (provider_generateContent E tempAI
                             validation_request (provider w)))
             = Normal response).
Proof.
  unfold validateApiKey, try_catch, bind.
  destruct (new_GoogleGenAI E apiKey) as [tempAI | e] eqn:Hnew.
  - rewrite await_generateContent_spec.
    destruct (outcome _) as [response | e] eqn:Hout.
    + eexists _, true. split; [reflexivity |].
      split; [apply models_generateContent_genAI |].
      split; [| done]. intros _. by exists tempAI, response.
    + eexists _, false. split; [reflexivity |].
      split; [apply models_generateContent_genAI |].
      split; [done |]. intros (ai & response & Hai & Hresp).
      injection Hai as <-. congruence.
  - exists w, false. split; [reflexivity |]. split; [reflexivity |].
    split; [done |]. by intros (ai & response & Hai & _).
Qed.

End Validation.

(** C4. [validateApiKey] never throws, whatever the candidate key and
    whatever the provider does: it completes normally with a boolean and
    leaves the armed client as it was.  The boolean is [false] when the
    temporary client cannot be made and when its probe request is
    rejected, for any error; it is [true] only when the probe request is
    answered. *)
Theorem validateApiKey_never_throws
    {Client PS : Type} (E : GeminiService.Env Client PS)
    (apiKey : string) (w : GeminiService.World Client PS) :
  let probe := fun tempAI =>
    outcome (snd (GeminiService.provider_generateContent E tempAI
                    GeminiService.validation_request
                    (GeminiService.provider w))) in
  let result := snd (GeminiService.validateApiKey E apiKey w) in
  (exists w' b,
     GeminiService.validateApiKey E apiKey w = (w', Normal b)
     /\ GeminiService.genAI w' = GeminiService.genAI w)
  /\ (forall error,
        GeminiService.new_GoogleGenAI E apiKey = Throw error ->
        result = Normal false)
  /\ (forall tempAI error,
        GeminiService.new_GoogleGenAI E apiKey = Normal tempAI ->
        probe tempAI = Throw error ->
        result = Normal false)
  /\ (forall tempAI,
        GeminiService.new_GoogleGenAI E apiKey = Normal tempAI ->
        result = Normal true ->
        exists response, probe tempAI = Normal response)
  /\ (forall tempAI response,
        GeminiService.new_GoogleGenAI E apiKey = Normal tempAI ->
        probe tempAI = Normal response ->
        result = Normal true).
Proof.
  intros probe result.
  destruct (validateApiKey_spec E apiKey w)
    as (w' & b & Hrun & Hsame & Haccepted).
  assert (Hresult : result = Normal b) by (unfold result; by rewrite Hrun).
  rewrite Hresult. clear Hresult.
  split; [by exists w', b |].
  split; [| split; [| split]].
  - intros error Hnew. destruct b; [| done].
    destruct (proj1 Haccepted eq_refl) as (ai & response & Hai & _).
    congruence.
  - intros tempAI error Hnew Hprobe. destruct b; [| done].
    destruct (proj1 Haccepted eq_refl) as (ai & response & Hai & Hresp).
    assert (ai = tempAI) as -> by congruence.
    unfold probe in Hprobe. congruence.
  - intros tempAI Hnew [= ->].
    destruct (proj1 Haccepted eq_refl) as (ai & response & Hai & Hresp).
    assert (ai = tempAI) as -> by congruence.
    by exists response.
  - intros tempAI response Hnew Hprobe. f_equal.
    apply Haccepted. by exists tempAI, response.
Qed.

Lemma validateApiKey_never_throws_witness :
  snd (GeminiService.validateApiKey (Stub.scripted []) "abc123" Stub.unarmed)
  = Normal false.
Proof.
  exact (proj1 (proj2 (proj2
           (validateApiKey_never_throws (Stub.scripted []) "abc123"
              Stub.unarmed)))
           "abc123" Stub.provider_error eq_refl eq_refl).
Defined.

Example validateApiKey_rejecting_provider :
  snd (GeminiService.validateApiKey (Stub.scripted []) "abc123" Stub.unarmed)
  = Normal false.
Proof. reflexivity. Qed.

Example validateApiKey_accepting_provider :
  snd (GeminiService.validateApiKey
         (Stub.scripted [Stub.at_tick 1 (Normal (Stub.text_response "ok"))])
         "abc123" Stub.unarmed)
  = Normal true.
Proof. reflexivity. Qed.

(** ** Proofs: the two text operations with a credential *)

Section ArmedText.

Import Types GenAI GeminiService.

Context {Client PS : Type}.
Variable E : Env Client PS.
Implicit Type w : World Client PS.

(** The answer of the provider to a request made in [w]. *)
Local Abbreviation reply_to ai params w :=
  (outcome (snd (provider_generateContent E ai params (provider w)))).

Lemma generateCreativePrompt_armed w ai topic :
  genAI w = Some ai ->
  snd (generateCreativePrompt E topic w)
  = match reply_to ai (creative_prompt_request topic) w with
    | Normal response =>
        Normal (or_else (trim <$> response_text response) topic)
    | Throw error =>
        if mentions_api_key error then Throw error else Normal topic
    end.
Proof.
  intros Harmed. unfold generateCreativePrompt, try_catch, bind.
  rewrite (getClient_armed _ _ Harmed), await_generateContent_spec.
  destruct (reply_to ai (creative_prompt_request topic) w) as [r | e];
    [reflexivity |].
  by destruct (mentions_api_key e).
Qed.

Lemma generateTopicSuggestions_armed w ai :
  genAI w = Some ai ->
  snd (generateTopicSuggestions E w)
  = match reply_to ai topic_suggestions_request w with
    | Normal response =>
        Normal (filter (fun t => nonempty t = true)
                  (map trim (split comma (or_else (response_text response) ""))))
    | Throw error =>
        if mentions_api_key error then Throw error else Normal fallback_topics
    end.
Proof.
  intros Harmed. unfold generateTopicSuggestions, try_catch, bind.
  rewrite (getClient_armed _ _ Harmed), await_generateContent_spec.
  destruct (reply_to ai topic_suggestions_request w) as [r | e];
    [reflexivity |].
  by destruct (mentions_api_key e).
Qed.

End ArmedText.





Example generateCreativePrompt_trims_answer :
  snd (GeminiService.generateCreativePrompt
         (Stub.scripted
            [Stub.at_tick 1 (Normal (Stub.text_response "  neon rain  "))])
         "city" (Stub.armed "abc123"))
  = Normal "neon rain".
Proof. vm_compute. reflexivity. Qed.




(** ** Proofs: one image *)

Section OneImage.

Import Types GenAI GeminiService.

(** The loop returns at the first part that carries data. *)
Lemma first_inline_image_found (ps : list Part) i part blob d :
  ps !! i = Some part ->
  inlineData part = Some blob ->
  data blob = Some d ->
  d <> "" ->
  (forall j part',
     (j < i)%nat -> ps !! j = Some part' -> has_inline_data part' = false) ->
  first_inline_image ps
  = Some ("data:" +:+ or_else (mimeType blob) "image/png"
          +:+ ";base64," +:+ d).
Proof.
  revert i. induction ps as [| p ps IH]; intros i Hi Hblob Hdata Hd Hbefore;
    [done |].
  destruct i as [| i]; simpl in *.
  - injection Hi as ->. rewrite Hblob, Hdata. simpl.
    destruct d; [done | reflexivity].
  - assert (Hp : has_inline_data p = false)
      by (apply (Hbefore 0%nat); [lia | done]).
    unfold has_inline_data in Hp.
    assert (Hrest : first_inline_image ps
                    = Some ("data:" +:+ or_else (mimeType blob) "image/png"
                            +:+ ";base64," +:+ d)).
    { apply (IH i); try done.
      intros j part' Hj Hpart'. apply (Hbefore (S j)); [lia | done]. }
    destruct (inlineData p) as [b |]; [| exact Hrest].
    by rewrite Hp.
Qed.

Lemma first_inline_image_none (ps : list Part) :
  (forall part, part ∈ ps -> has_inline_data part = false) ->
  first_inline_image ps = None.
Proof.
  induction ps as [| p ps IH]; intros Hall; [done |].
  simpl. pose proof (Hall p ltac:(left)) as Hp.
  unfold has_inline_data in Hp.
  assert (Hrest : first_inline_image ps = None)
    by (apply IH; intros part Hin; apply Hall; by right).
  destruct (inlineData p) as [b |]; [| exact Hrest].
  by rewrite Hp.
Qed.

Context {Client PS : Type}.
Variable E : Env Client PS.
Implicit Type w : World Client PS.

Lemma generateSingleImage_armed w ai prompt referenceImage :
  genAI w = Some ai ->
  generateSingleImage E prompt referenceImage w
  = (fst (models_generateContent E ai
            (image_request prompt referenceImage) w),
     {| settles_at :=
          settles_at (snd (provider_generateContent E ai
                             (image_request prompt referenceImage)
                             (provider w)));
        outcome :=
          match outcome (snd (provider_generateContent E ai
                                (image_request prompt referenceImage)
                                (provider w))) with
          | Normal response => read_image response
          | Throw error => Throw error
          end |}).
Proof.
  intros Harmed. unfold generateSingleImage.
  rewrite (getClient_armed _ _ Harmed).
  unfold models_generateContent, and_then.
  destruct (provider_generateContent E ai _ (provider w)) as [ps' reply].
  simpl. f_equal. f_equal.
  destruct (outcome reply) as [response |]; [| reflexivity].
  by destruct (read_image response).
Qed.

End OneImage.

(** C7, as the code has it.  With a client armed and the provider's call
    answered by [response], [generateSingleImage] looks at the first
    candidate only.  It fails with the no-image error when the response
    has no [candidates], when the content of the first candidate has no
    [parts], and when none of these parts carries inline data that is
    not empty; otherwise it returns the first such part as a data URL,
    with the part's MIME type or [image/png] without one. *)
Theorem generateSingleImage_reads_first_candidate
    {Client PS : Type} (E : GeminiService.Env Client PS)
    (w : GeminiService.World Client PS) (ai : Client)
    (prompt : string) (referenceImage : option string)
    (response : GenAI.GenerateContentResponse) :
  GeminiService.genAI w = Some ai ->
  outcome (snd (GeminiService.provider_generateContent E ai
                  (GeminiService.image_request prompt referenceImage)
                  (GeminiService.provider w)))
  = Normal response ->
  let result :=
    outcome (snd (GeminiService.generateSingleImage E prompt
                    referenceImage w)) in
  let no_image := Throw (newError GeminiService.no_image_message) in
  (GenAI.candidates response = None -> result = no_image)
  /\
  (forall candidate rest c,
     GenAI.candidates response = Some (candidate :: rest) ->
     GenAI.content candidate = Some c ->
     (GenAI.parts c = None -> result = no_image)
     /\
     (forall ps,
        GenAI.parts c = Some ps ->
        (forall i part blob d,
           ps !! i = Some part ->
           GenAI.inlineData part = Some blob ->
           GenAI.data blob = Some d ->
           d <> "" ->
           (forall j part',
              (j < i)%nat -> ps !! j = Some part' ->
              GeminiService.has_inline_data part' = false) ->
           result
           = Normal ("data:" +:+ or_else (GenAI.mimeType blob) "image/png"
                     +:+ ";base64," +:+ d))
        /\
        ((forall part,
            part ∈ ps -> GeminiService.has_inline_data part = false) ->
         result = no_image))).
Proof.
  intros Harmed Hreply result no_image.
  assert (Hresult : result = GeminiService.read_image response).
  { unfold result.
    rewrite (generateSingleImage_armed E w ai prompt referenceImage Harmed).
    simpl. by rewrite Hreply. }
  rewrite Hresult. unfold GeminiService.read_image.
  split.
  - by intros ->.
  - intros candidate rest c -> ->. split.
    + by intros ->.
    + intros ps ->. split.
      * intros i part blob d Hi Hblob Hdata Hd Hbefore.
        by rewrite (first_inline_image_found ps i part blob d).
      * intros Hnone. by rewrite first_inline_image_none.
Qed.

Lemma generateSingleImage_reads_first_candidate_witness :
  outcome (snd (GeminiService.generateSingleImage
                  (Stub.scripted
                     [Stub.at_tick 1
                        (Normal (Stub.parts_response
                           [[Stub.text_part "Here it is";
                             Stub.image_part "iVBORw0KGgo="]]))])
                  "sunset" None (Stub.armed "abc123")))
  = Normal "data:image/png;base64,iVBORw0KGgo=".
Proof.
  refine (proj1
    (proj2
       (proj2
          (generateSingleImage_reads_first_candidate
             (Stub.scripted
                [Stub.at_tick 1
                   (Normal (Stub.parts_response
                      [[Stub.text_part "Here it is";
                        Stub.image_part "iVBORw0KGgo="]]))])
             (Stub.armed "abc123") "abc123" "sunset" None _ eq_refl eq_refl)
          _ _ _ eq_refl eq_refl)
       _ eq_refl)
    1%nat _ _ "iVBORw0KGgo=" eq_refl eq_refl eq_refl _ _).
  - discriminate.
  - intros [| j] part' Hj Hpart'; [| lia].
    injection Hpart' as <-. reflexivity.
Defined.

(** C7 as stated fails on two responses.  A response whose list of
    candidates is empty carries no image, and the failure is the
    TypeError of reading [content] of [undefined], not the no-image
    error.  A response whose image is in its second candidate carries an
    image, and the call fails with the no-image error. *)
Lemma generateSingleImage_other_failures :
  outcome (snd (GeminiService.generateSingleImage
                  (Stub.scripted
                     [Stub.at_tick 1 (Normal (Stub.parts_response []))])
                  "sunset" None (Stub.armed "abc123")))
  = Throw (ErrorObj "TypeError"
             "Cannot read properties of undefined (reading 'content')")
  /\
  outcome (snd (GeminiService.generateSingleImage
                  (Stub.scripted
                     [Stub.at_tick 1
                        (Normal (Stub.parts_response
                           [[Stub.text_part "First candidate"];
                            [Stub.image_part "iVBORw0KGgo="]]))])
                  "sunset" None (Stub.armed "abc123")))
  = Throw (newError GeminiService.no_image_message).
Proof. split; vm_compute; reflexivity. Qed.

(** ** Proofs: the set of four *)

Section PromiseAll.

Context {A : Type}.
Implicit Type ps : list (Promise A).

Lemma earliest_rejection_fulfilled ps :
  Forall (fun p => exists a, outcome p = Normal a) ps ->
  earliest_rejection ps = None /\ length (fulfilled_values ps) = length ps.
Proof.
  induction 1 as [| p ps [a Ha] _ [IHr IHl]]; [done |].
  simpl. rewrite Ha, IHr. simpl. by rewrite IHl.
Qed.

Lemma earliest_rejection_rejected ps :
  Exists (fun p => exists e, outcome p = Throw e) ps ->
  exists t e, earliest_rejection ps = Some (t, e).
Proof.
  induction 1 as [p ps [e He] | p ps _ (t & e & IH)]; simpl.
  - rewrite He. destruct (earliest_rejection ps) as [[t e'] |]; [| by eauto].
    destruct (Nat.leb (settles_at p) t); eauto.
  - rewrite IH. destruct (outcome p) as [a | e0]; [by eauto |].
    destruct (Nat.leb (settles_at p) t); eauto.
Qed.

(** The reason of a rejected [Promise.all] is the reason of one of its
    promises. *)
Lemma earliest_rejection_elem ps t e :
  earliest_rejection ps = Some (t, e) ->
  exists p, p ∈ ps /\ outcome p = Throw e /\ settles_at p = t.
Proof.
  revert t e. induction ps as [| p ps IH]; intros t e; [done |].
  simpl. destruct (outcome p) as [a | e0] eqn:Hp.
  - intros H. destruct (IH _ _ H) as (q & Hq & Hout).
    exists q. split; [by right | done].
  - destruct (earliest_rejection ps) as [[t' e'] |] eqn:Hrest.
    + destruct (Nat.leb (settles_at p) t').
      * intros [= <- <-]. exists p. split; [by left | done].
      * intros [= <- <-]. destruct (IH _ _ eq_refl) as (q & Hq & Hout).
        exists q. split; [by right | done].
    + intros [= <- <-]. exists p. split; [by left | done].
Qed.

Lemma Promise_all_fulfilled ps :
  Forall (fun p => exists a, outcome p = Normal a) ps ->
  outcome (Promise_all ps) = Normal (fulfilled_values ps).
Proof.
  intros H. unfold Promise_all.
  by destruct (earliest_rejection_fulfilled ps H) as [-> _].
Qed.

Lemma Promise_all_rejected ps :
  Exists (fun p => exists e, outcome p = Throw e) ps ->
  exists e, outcome (Promise_all ps) = Throw e.
Proof.
  intros H. unfold Promise_all.
  destruct (earliest_rejection_rejected ps H) as (t & e & ->). by exists e.
Qed.

End PromiseAll.

Section Identifiers.

Lemma last_char_app (s t : string) :
  t <> "" -> last_char (s +:+ t) = last_char t.
Proof.
  intros Ht. induction s as [| c s IH]; [done |].
  simpl. rewrite IH. destruct (s +:+ t) eqn:Hst; [| done].
  destruct s; simpl in Hst; [done | discriminate].
Qed.

(** Among the indices of an array of four, the last character of
    [`${t}-${index}`] tells the index. *)
Lemma id_tells_index (t1 t2 : Z) (i j : nat) :
  (i < 4)%nat -> (j < 4)%nat ->
  pretty t1 +:+ "-" +:+ pretty i = pretty t2 +:+ "-" +:+ pretty j ->
  i = j.
Proof.
  intros Hi Hj Heq.
  apply (f_equal last_char) in Heq.
  assert (Hlast : forall (t : Z) (k : nat), (k < 4)%nat ->
            last_char (pretty t +:+ "-" +:+ pretty k) = last_char (pretty k)).
  { intros t k Hk. rewrite !last_char_app; [done | |].
    - destruct k as [| [| [| [| k]]]]; [done .. | lia].
    - destruct k as [| [| [| [| k]]]]; [done .. | lia]. }
  rewrite !Hlast in Heq by done.
  destruct i as [| [| [| [| i]]]]; [| | | | lia];
    destruct j as [| [| [| [| j]]]]; try lia; try done.
Qed.

End Identifiers.

Section FourImages.

Import GenAI GeminiService.

Context {Client PS : Type}.
Variable E : Env Client PS.
Implicit Type w : World Client PS.

Lemma start_all_length {A B}
    (f : A -> World Client PS -> World Client PS * Promise B) l w :
  length (snd (start_all f l w)) = length l.
Proof.
  revert w. induction l as [| a l IH]; intros w; [done |].
  simpl. destruct (f a w) as [w1 p].
  specialize (IH w1). destruct (start_all f l w1) as [w2 ps].
  simpl in *. by rewrite IH.
Qed.

(** An armed call sends its request and leaves the client armed. *)
Lemma generateSingleImage_sent w ai prompt referenceImage :
  genAI w = Some ai ->
  genAI (fst (generateSingleImage E prompt referenceImage w)) = Some ai
  /\ sent (fst (generateSingleImage E prompt referenceImage w))
     = sent w ++ [image_request prompt referenceImage].
Proof.
  intros Harmed. rewrite (generateSingleImage_armed E w ai _ _ Harmed).
  unfold models_generateContent.
  by destruct (provider_generateContent E ai _ (provider w)).
Qed.

Lemma start_all_sent n w ai prompt referenceImage :
  genAI w = Some ai ->
  sent (fst (start_all
               (fun _ : unit => generateSingleImage E prompt referenceImage)
               (replicate n tt) w))
  = sent w ++ replicate n (image_request prompt referenceImage).
Proof.
  revert w. induction n as [| n IH]; intros w Harmed; simpl.
  - by rewrite app_nil_r.
  - destruct (generateSingleImage_sent w ai prompt referenceImage Harmed)
      as [Harmed1 Hsent1].
    destruct (generateSingleImage E prompt referenceImage w) as [w1 p].
    simpl in *. specialize (IH w1 Harmed1).
    destruct (start_all _ (replicate n ()) w1) as [w2 ps]. simpl in *.
    rewrite IH, Hsent1, <- app_assoc. reflexivity.
Qed.

(** The images made of the results: as many as the results, in their
    order, each with the prompt and with an id that ends in its index;
    no request is sent while they are made. *)
Lemma mapM_indexed_make_image prompt results index w :
  exists w' imgs,
    mapM_indexed (make_image E prompt) index results w = (w', Normal imgs)
    /\ sent w' = sent w
    /\ length imgs = length results
    /\ Types.url <$> imgs = results
    /\ Forall (fun img => Types.prompt img = prompt) imgs
    /\ (forall k img,
          imgs !! k = Some img ->
          exists t : Z,
            Types.id img = pretty t +:+ "-" +:+ pretty (index + k)%nat).
Proof.
  revert index w.
  induction results as [| url results IH]; intros index w.
  - exists w, []. repeat split; try done; constructor.
  - simpl. unfold bind at 1. unfold make_image at 1.
    unfold bind, Date_now, ret. simpl.
    match goal with
    | |- context [mapM_indexed _ _ _ ?w1] =>
        destruct (IH (S index) w1)
          as (w' & imgs & -> & Hsent & Hlen & Hurl & Hprompt & Hid)
    end.
    eexists _, (_ :: imgs). split; [reflexivity |].
    split; [exact Hsent |]. split; [simpl; by rewrite Hlen |].
    split; [by rewrite fmap_cons, Hurl |].
    split; [by constructor |].
    intros [| k] img Hk; simpl in Hk.
    + injection Hk as <-. simpl. rewrite Nat.add_0_r. eauto.
    + destruct (Hid k img Hk) as [t Ht]. exists t.
      by rewrite Ht, Nat.add_succ_r.
Qed.

Lemma generateWallpapers_unfold prompt referenceImage w :
  generateWallpapers E prompt referenceImage w
  = let started :=
      start_all (fun _ : unit => generateSingleImage E prompt referenceImage)
        (replicate 4 tt) w in
    match outcome (Promise_all (snd started)) with
    | Normal results =>
        mapM_indexed (make_image E prompt) 0 results (fst started)
    | Throw error =>
        (fst started,
         Throw (newError
                  (if mentions_api_key error
                   then wallpapers_missing_key_message
                   else wallpapers_failure_message)))
    end.
Proof.
  unfold generateWallpapers.
  destruct (start_all _ (replicate 4 ()) w) as [w1 promises].
  cbv zeta. unfold try_catch, bind at 1, await. simpl fst. simpl snd.
  destruct (outcome (Promise_all promises)) as [results | error].
  - destruct (mapM_indexed_make_image prompt results 0 w1)
      as (w' & imgs & -> & _). reflexivity.
  - by destruct (mentions_api_key error).
Qed.

End FourImages.

(** C3. [generateWallpapers] makes four calls of [generateSingleImage]
    with the prompt and reference image it was given (with a client armed
    that is four identical requests to the provider, and no further
    one).  When all four promises are fulfilled it returns four images in
    the order of the calls, their ids pairwise distinct, each with the
    given prompt and the data URL of its call.  When at least one promise
    is rejected it throws one error, with one of its two fixed messages,
    and returns no image. *)
Theorem generateWallpapers_all_or_nothing
    {Client PS : Type} (E : GeminiService.Env Client PS)
    (w : GeminiService.World Client PS)
    (prompt : string) (referenceImage : option string) :
  let started :=
    GeminiService.start_all
      (fun _ : unit =>
         GeminiService.generateSingleImage E prompt referenceImage)
      (replicate 4 tt) w in
  let promises := snd started in
  let finished := GeminiService.generateWallpapers E prompt referenceImage w in
  length promises = 4%nat
  /\
  (forall ai,
     GeminiService.genAI w = Some ai ->
     GeminiService.sent (fst started)
     = GeminiService.sent w
       ++ replicate 4 (GeminiService.image_request prompt referenceImage)
     /\ GeminiService.sent (fst finished) = GeminiService.sent (fst started))
  /\
  (Forall (fun p => exists dataUrl, outcome p = Normal dataUrl) promises ->
   exists imgs,
     snd finished = Normal imgs
     /\ length imgs = 4%nat
     /\ NoDup (Types.id <$> imgs)
     /\ Forall (fun img => Types.prompt img = prompt) imgs
     /\ Types.url <$> imgs = fulfilled_values promises)
  /\
  (Exists (fun p => exists error, outcome p = Throw error) promises ->
   snd finished
   = Throw (newError GeminiService.wallpapers_missing_key_message)
   \/ snd finished
      = Throw (newError GeminiService.wallpapers_failure_message)).
Proof.
  intros started promises finished.
  assert (Hlen : length promises = 4%nat)
    by (unfold promises, started; by rewrite start_all_length).
  pose proof (generateWallpapers_unfold E prompt referenceImage w) as Hrun.
  fold started finished in Hrun. cbv zeta in Hrun.
  change (snd started) with promises in Hrun.
  split; [exact Hlen |]. split; [| split].
  - intros ai Harmed. split.
    + apply (start_all_sent E 4 w ai prompt referenceImage Harmed).
    + rewrite Hrun.
      destruct (outcome (Promise_all promises)) as [results | error];
        [| reflexivity].
      by destruct (mapM_indexed_make_image E prompt results 0 (fst started))
        as (w' & imgs & -> & Hsent & _).
  - intros Hall.
    rewrite Hrun, (Promise_all_fulfilled promises Hall).
    destruct (earliest_rejection_fulfilled promises Hall) as [_ Hvalues].
    destruct (mapM_indexed_make_image E prompt (fulfilled_values promises)
                0 (fst started))
      as (w' & imgs & -> & _ & Himgs & Hurl & Hprompt & Hid).
    exists imgs. split; [reflexivity |].
    assert (Hfour : length imgs = 4%nat) by congruence.
    split; [exact Hfour |]. split; [| by split].
    apply NoDup_alt. intros i j x Hi Hj.
    apply list_lookup_fmap_Some in Hi as (img_i & -> & Hi).
    apply list_lookup_fmap_Some in Hj as (img_j & Heq & Hj).
    destruct (Hid i img_i Hi) as [ti Hti].
    destruct (Hid j img_j Hj) as [tj Htj].
    apply lookup_lt_Some in Hi, Hj.
    rewrite Hti, Htj in Heq. simpl in Heq.
    apply (id_tells_index ti tj i j); [lia | lia | exact Heq].
  - intros Hsome.
    destruct (Promise_all_rejected promises Hsome) as [error Herror].
    rewrite Hrun, Herror. simpl.
    destruct (GeminiService.mentions_api_key error); [by left | by right].
Qed.

(** Four answered calls: four images for the prompt, ids that end in
    0 to 3. *)
Example generateWallpapers_four_images :
  snd (GeminiService.generateWallpapers
         (Stub.scripted
            (map (fun d =>
                    Stub.at_tick 2
                      (Normal (Stub.parts_response [[Stub.image_part d]])))
               ["QQ=="; "Qg=="; "Qw=="; "RA=="]))
         "sunset" None (Stub.armed "abc123"))
  = Normal
      [ {| Types.id := "1700000000000-0";
           Types.url := "data:image/png;base64,QQ==";
           Types.prompt := "sunset"; Types.createdAt := 1700000000001 |};
        {| Types.id := "1700000000002-1";
           Types.url := "data:image/png;base64,Qg==";
           Types.prompt := "sunset"; Types.createdAt := 1700000000003 |};
        {| Types.id := "1700000000004-2";
           Types.url := "data:image/png;base64,Qw==";
           Types.prompt := "sunset"; Types.createdAt := 1700000000005 |};
        {| Types.id := "1700000000006-3";
           Types.url := "data:image/png;base64,RA==";
           Types.prompt := "sunset"; Types.createdAt := 1700000000007 |} ].
Proof. vm_compute. reflexivity. Qed.

(** Three answered calls and one rejected: one error, no image. *)
Lemma generateWallpapers_all_or_nothing_witness :
  snd (GeminiService.generateWallpapers
         (Stub.scripted
            (map (fun d =>
                    Stub.at_tick 2
                      (Normal (Stub.parts_response [[Stub.image_part d]])))
               ["QQ=="; "Qg=="; "Qw=="]))
         "sunset" None (Stub.armed "abc123"))
  = Throw (newError GeminiService.wallpapers_missing_key_message)
  \/
  snd (GeminiService.generateWallpapers
         (Stub.scripted
            (map (fun d =>
                    Stub.at_tick 2
                      (Normal (Stub.parts_response [[Stub.image_part d]])))
               ["QQ=="; "Qg=="; "Qw=="]))
         "sunset" None (Stub.armed "abc123"))
  = Throw (newError GeminiService.wallpapers_failure_message).
Proof.
  apply (generateWallpapers_all_or_nothing
           (Stub.scripted
              (map (fun d =>
                      Stub.at_tick 2
                        (Normal (Stub.parts_response [[Stub.image_part d]])))
                 ["QQ=="; "Qg=="; "Qw=="]))
           (Stub.armed "abc123") "sunset" None).
  do 3 apply Exists_cons_tl. apply Exists_cons_hd.
  exists Stub.provider_error. reflexivity.
Defined.

Example generateWallpapers_one_rejected :
  snd (GeminiService.generateWallpapers
         (Stub.scripted
            (map (fun d =>
                    Stub.at_tick 2
                      (Normal (Stub.parts_response [[Stub.image_part d]])))
               ["QQ=="; "Qg=="; "Qw=="]))
         "sunset" None (Stub.armed "abc123"))
  = Throw (newError GeminiService.wallpapers_failure_message).
Proof. vm_compute. reflexivity. Qed.

(** ** Proofs: disarming the client *)

Section Disarmed.

Import GenAI GeminiService Session.

Context {Client PS : Type}.
Variable E : Env Client PS.
Implicit Type w : World Client PS.

Lemma setApiKey_not_arming apiKey w :
  nonempty apiKey = false ->
  setApiKey E apiKey w = (set_genAI None w, Normal tt).
Proof. intros H. unfold setApiKey. by rewrite H. Qed.

(** One call on a disarmed client: the client stays disarmed unless the
    call arms it, and a generation call fails for want of the key. *)
Lemma perform_disarmed c w :
  genAI w = None ->
  arms c = false ->
  genAI (fst (perform E c w)) = None
  /\ (is_generation c = true ->
      snd (perform E c w) = Throw (newError missing_key_message)
      \/ snd (perform E c w) = Throw (newError wallpapers_missing_key_message)).
Proof.
  intros Hnone Harms. destruct c as [k | k | topic | | p r | p r]; simpl.
  - unfold bind. rewrite (setApiKey_not_arming k w Harms). by split.
  - unfold bind.
    destruct (validateApiKey_spec E k w) as (w' & b & -> & Hsame & _).
    simpl. split; [congruence | done].
  - unfold bind. rewrite (generateCreativePrompt_unarmed E w topic Hnone).
    split; [done | by left].
  - unfold bind. rewrite (generateTopicSuggestions_unarmed E w Hnone).
    split; [done | by left].
  - unfold bind. rewrite (generateSingleImage_unarmed E w p r Hnone).
    split; [done | by left].
  - unfold bind. rewrite (generateWallpapers_unarmed E w p r Hnone).
    split; [done | by right].
Qed.

Lemma perform_all_disarmed cs w :
  genAI w = None ->
  Forall (fun c => arms c = false) cs ->
  genAI (fst (perform_all E cs w)) = None
  /\ (forall i c,
        cs !! i = Some c ->
        is_generation c = true ->
        snd (perform_all E cs w) !! i
        = Some (Throw (newError missing_key_message))
        \/ snd (perform_all E cs w) !! i
           = Some (Throw (newError wallpapers_missing_key_message))).
Proof.
  intros Hnone Hcs. revert w Hnone.
  induction Hcs as [| c cs Hc _ IH]; intros w Hnone; [done |].
  simpl. destruct (perform_disarmed c w Hnone Hc) as [Hstill Hfails].
  destruct (perform E c w) as [w1 a]. simpl in *.
  destruct (IH w1 Hstill) as [Hend Hrest].
  destruct (perform_all E cs w1) as [w2 answers]. simpl in *.
  split; [exact Hend |].
  intros [| i] c' Hi Hgen; simpl in *.
  - injection Hi as <-. destruct (Hfails Hgen) as [-> | ->]; eauto.
  - by apply (Hrest i c').
Qed.

End Disarmed.

(** C10. [setApiKey("")] disarms the client.  In any session that starts
    with it and goes on with calls none of which is [setApiKey] with a
    key that is not empty, the client is disarmed at the end and every
    generation call in between has failed with the missing-credential
    error ([getClient]'s, or the one [generateWallpapers] makes of it). *)
Theorem empty_key_disarms
    {Client PS : Type} (E : GeminiService.Env Client PS)
    (w : GeminiService.World Client PS) (calls : list Session.Call) :
  Forall (fun c => Session.arms c = false) calls ->
  let after := Session.perform_all E (Session.SetApiKey "" :: calls) w in
  GeminiService.genAI (fst after) = None
  /\ (forall i c,
        calls !! i = Some c ->
        Session.is_generation c = true ->
        snd after !! S i
        = Some (Throw (newError GeminiService.missing_key_message))
        \/ snd after !! S i
           = Some (Throw (newError
                            GeminiService.wallpapers_missing_key_message))).
Proof.
  intros Hcalls after. unfold after. simpl.
  pose proof (perform_all_disarmed E calls (GeminiService.set_genAI None w)
                eq_refl Hcalls) as [Hend Hfail].
  destruct (Session.perform_all E calls _) as [w2 answers]. simpl in *.
  split; [exact Hend | exact Hfail].
Qed.

Lemma empty_key_disarms_witness :
  snd (Session.perform_all (Stub.scripted [])
         [ Session.SetApiKey "";
           Session.GenerateTopicSuggestions;
           Session.ValidateApiKey "abc123";
           Session.SetApiKey "";
           Session.GenerateWallpapers "sunset" None ]
         (Stub.armed "abc123")) !! 4%nat
  = Some (Throw (newError GeminiService.missing_key_message))
  \/
  snd (Session.perform_all (Stub.scripted [])
         [ Session.SetApiKey "";
           Session.GenerateTopicSuggestions;
           Session.ValidateApiKey "abc123";
           Session.SetApiKey "";
           Session.GenerateWallpapers "sunset" None ]
         (Stub.armed "abc123")) !! 4%nat
  = Some (Throw (newError GeminiService.wallpapers_missing_key_message)).
Proof.
  refine (proj2 (empty_key_disarms (Stub.scripted []) (Stub.armed "abc123")
                   [ Session.GenerateTopicSuggestions;
                     Session.ValidateApiKey "abc123";
                     Session.SetApiKey "";
                     Session.GenerateWallpapers "sunset" None ] _)
            3%nat (Session.GenerateWallpapers "sunset" None)
            eq_refl eq_refl).
  repeat constructor.
Defined.

(** A key that is not empty arms the client again. *)
Example key_arms_again :
  snd (Session.perform_all
         (Stub.scripted
            [Stub.at_tick 1 (Normal (Stub.text_response "neon rain"))])
         [ Session.SetApiKey "";
           Session.GenerateCreativePrompt "city";
           Session.SetApiKey "abc123";
           Session.GenerateCreativePrompt "city" ]
         (Stub.armed "old"))
  = [ Normal Session.Done;
      Throw (newError GeminiService.missing_key_message);
      Normal Session.Done;
      Normal (Session.PromptText "neon rain") ].
Proof. vm_compute. reflexivity. Qed.

(** ** Proofs: the generate handler *)

Lemma handleGenerate_start_guards (s : App.State) :
  nonempty (App.apiKey s) = true ->
  nonempty (trim (App.prompt s)) = true ->
  App.handleGenerate_start s
  = [ App.SetIsLoading true; App.SetError None; App.SetImages [];
      App.CallGenerateWallpapers (App.prompt s)
        (Types.url <$> App.remixSource s) ].
Proof.
  intros Hkey Hprompt. unfold App.handleGenerate_start.
  by rewrite Hkey, Hprompt.
Qed.

(** C8. In [handleGenerate], whenever the call of [generateWallpapers] is
    made, the setters that come before it have already emptied the result
    set and cleared the error, whatever the state was; the call is the
    last thing the handler does before it waits, so the state stays that
    way while the request is in flight.  The call is made whenever a key
    is present and the prompt is not blank. *)
Theorem handleGenerate_clears_before_request (s : App.State) :
  (forall before prompt referenceImage after,
     App.handleGenerate_start s
     = before ++ App.CallGenerateWallpapers prompt referenceImage :: after ->
     App.images (App.run s before) = []
     /\ App.error (App.run s before) = None
     /\ after = []
     /\ App.images (App.run s (App.handleGenerate_start s)) = []
     /\ App.error (App.run s (App.handleGenerate_start s)) = None
     /\ App.isLoading (App.run s (App.handleGenerate_start s)) = true)
  /\
  (nonempty (App.apiKey s) = true ->
   nonempty (trim (App.prompt s)) = true ->
   App.requested (App.handleGenerate_start s)
   = Some (App.prompt s, Types.url <$> App.remixSource s)).
Proof.
  split.
  - intros before p r after. unfold App.handleGenerate_start.
    destruct (nonempty (App.apiKey s)); simpl.
    + destruct (nonempty (trim (App.prompt s))); simpl.
      * intros Heq.
        destruct before as [| a1 [| a2 [| a3 [| a4 before]]]];
          simplify_eq/=; [done |].
        by destruct before.
      * intros Heq. by destruct before.
    + intros Heq. destruct before as [| a1 before]; simplify_eq/=.
      by destruct before.
  - intros Hkey Hprompt.
    by rewrite (handleGenerate_start_guards s Hkey Hprompt).
Qed.

Lemma handleGenerate_clears_before_request_witness :
  let stale :=
    {| Types.id := "1700000000000-0";
       Types.url := "data:image/png;base64,QQ==";
       Types.prompt := "old"; Types.createdAt := 1700000000001 |} in
  let s :=
    {| App.apiKey := "abc123"; App.isSettingsOpen := false;
       App.prompt := "sunset"; App.images := [stale];
       App.isLoading := false; App.remixSource := None;
       App.error := Some GeminiService.wallpapers_failure_message |} in
  App.images
    (App.run s [App.SetIsLoading true; App.SetError None; App.SetImages []])
  = [].
Proof.
  intros stale s.
  refine (proj1 (proj1 (handleGenerate_clears_before_request s)
                   [App.SetIsLoading true; App.SetError None;
                    App.SetImages []]
                   "sunset" None [] _)).
  vm_compute. reflexivity.
Defined.

(** The handler against the service, from a state with a stale result and
    a stale error: what it does before the request and after a failure. *)
Example handleGenerate_on_failure :
  let s :=
    {| App.apiKey := "abc123"; App.isSettingsOpen := false;
       App.prompt := "sunset"; App.images := [];
       App.isLoading := false; App.remixSource := None;
       App.error := Some "stale" |} in
  let '(start, settle, _) :=
    App.handleGenerate (Stub.scripted []) s (Stub.armed "abc123") in
  App.error (App.run s start) = None
  /\ App.run (App.run s start) settle
     = {| App.apiKey := "abc123"; App.isSettingsOpen := false;
          App.prompt := "sunset"; App.images := [];
          App.isLoading := false; App.remixSource := None;
          App.error := Some GeminiService.wallpapers_failure_message |}.
Proof. vm_compute. split; reflexivity. Qed.

(** ** More on the resilient store *)

Section StoreMemory.

Import SafeStorage StorageSession.

Context {P : Type}.
Variable B : Browser P.

(** [getItem] never writes [memoryStore]. *)
Lemma getItem_memoryStore (key : string) (s : Store P) :
  memoryStore (fst (getItem B key s)) = memoryStore s.
Proof.
  unfold getItem, bind, try_catch, storage_guard, browser, ret, gets.
  destruct (window_defined B); [| reflexivity].
  destruct (localStorage_guard B (persistent s)) as [p1 [[|] | e]];
    simpl; try reflexivity.
  destruct (ls_getItem B key p1) as [p2 [[v |] | e]]; reflexivity.
Qed.

Lemma getItem_unreachable (key : string) (s : Store P) :
  unreachable B ->
  snd (getItem B key s) = Normal (memory_or_null (memoryStore s) key).
Proof.
  intros [Hwin | Hguard];
    unfold getItem, bind, try_catch, storage_guard, browser, ret, gets.
  - by rewrite Hwin.
  - destruct (window_defined B); [| reflexivity].
    destruct (Hguard (persistent s)) as (p' & [-> | [e ->]]); reflexivity.
Qed.

Lemma perform_memoryStore (op : Op) (s : Store P) :
  memoryStore (perform B op s) = mirror (memoryStore s) op.
Proof.
  destruct op as [key | key value | key]; simpl.
  - apply getItem_memoryStore.
  - by destruct (setItem_normal B key value s) as (s' & -> & Hmem).
  - by destruct (removeItem_normal B key s) as (s' & -> & Hmem).
Qed.

End StoreMemory.

(** X1. When localStorage can be reached and its [getItem] answers,
    [safeStorage.getItem] returns that answer, a miss ([null]) included,
    without looking into [memoryStore], and leaves [memoryStore] as it
    was. *)
Theorem getItem_reachable_answers_from_storage {P : Type}
    (B : SafeStorage.Browser P) (key : string) (s : SafeStorage.Store P)
    (p1 p2 : P) (answer : option string) :
  SafeStorage.window_defined B = true ->
  SafeStorage.localStorage_guard B (SafeStorage.persistent s)
  = (p1, Normal true) ->
  SafeStorage.ls_getItem B key p1 = (p2, Normal answer) ->
  SafeStorage.getItem B key s
  = ({| SafeStorage.persistent := p2;
        SafeStorage.memoryStore := SafeStorage.memoryStore s |},
     Normal (SafeStorage.Text <$> answer)).
Proof.
  intros Hwin Hguard Hget.
  unfold SafeStorage.getItem, bind, try_catch, SafeStorage.storage_guard,
    SafeStorage.browser, ret.
  rewrite Hwin, Hguard. simpl. rewrite Hget.
  reflexivity.
Qed.

Lemma getItem_reachable_answers_from_storage_witness :
  SafeStorage.getItem SafeStorage.full_browser "k"
    {| SafeStorage.persistent := ∅;
       SafeStorage.memoryStore := {[ "k" := "v" ]} |}
  = ({| SafeStorage.persistent := ∅;
        SafeStorage.memoryStore := {[ "k" := "v" ]} |},
     Normal None).
Proof.
  exact (getItem_reachable_answers_from_storage SafeStorage.full_browser "k"
           {| SafeStorage.persistent := ∅;
              SafeStorage.memoryStore := {[ "k" := "v" ]} |}
           ∅ ∅ None eq_refl eq_refl eq_refl).
Defined.

(** X2. [setItem] records the value in [memoryStore] whatever the
    browser does with the write.  So a later [getItem] that cannot reach
    the storage (the browser may have changed its mind in between)
    returns the value written for that key, [null] if it was the empty
    string, and for every other key what [memoryStore] answered before.
    The key ["__proto__"] is the exception: unless [memoryStore] has an
    own property of that name the write is ignored, and the read answers
    as before the write. *)
Theorem setItem_then_unreachable_getItem {P : Type}
    (B1 B2 : SafeStorage.Browser P) (key key' value : string)
    (s : SafeStorage.Store P) :
  StorageSession.unreachable B2 ->
  snd (SafeStorage.getItem B2 key'
         (fst (SafeStorage.setItem B1 key value s)))
  = Normal
      (if decide (key' = key
                  /\ (key <> "__proto__"
                      \/ is_Some (SafeStorage.memoryStore s !! key)))
       then (if nonempty value then Some (SafeStorage.Text value) else None)
       else SafeStorage.memory_or_null (SafeStorage.memoryStore s) key').
Proof.
  intros Hgone.
  destruct (setItem_normal B1 key value s) as (s1 & -> & Hmem). simpl.
  rewrite (getItem_unreachable B2 key' s1 Hgone), Hmem.
  case_decide as Hkey.
  - destruct Hkey as [-> Hkey].
    unfold SafeStorage.memory_or_null, SafeStorage.memory_get.
    by rewrite memory_set_same.
  - destruct (decide (key' = key)) as [-> | Hne].
    + assert (Hproto : key = "__proto__"
                       /\ SafeStorage.memoryStore s !! key = None).
      { destruct (decide (key = "__proto__")) as [? | Hplain];
          [| exfalso; apply Hkey; by auto].
        split; [done |].
        destruct (SafeStorage.memoryStore s !! key) eqn:Hown; [| done].
        exfalso. apply Hkey. by eauto. }
      destruct Hproto as [-> Hown].
      unfold SafeStorage.memory_set.
      rewrite bool_decide_eq_true_2 by done. by rewrite Hown.
    + unfold SafeStorage.memory_or_null, SafeStorage.memory_get.
      by rewrite memory_set_other.
Qed.

Lemma setItem_then_unreachable_getItem_witness :
  snd (SafeStorage.getItem SafeStorage.blocked_browser "moodpaper_api_key"
         (fst (SafeStorage.setItem SafeStorage.blocked_browser
                 "moodpaper_api_key" "abc123"
                 (SafeStorage.empty_store tt))))
  = Normal (Some (SafeStorage.Text "abc123"))
  /\
  snd (SafeStorage.getItem SafeStorage.blocked_browser "__proto__"
         (fst (SafeStorage.setItem SafeStorage.blocked_browser
                 "__proto__" "abc123"
                 (SafeStorage.empty_store tt))))
  = Normal (Some (SafeStorage.Inherited "__proto__")).
Proof.
  assert (Hgone : StorageSession.unreachable SafeStorage.blocked_browser).
  { right. intros []. exists tt. right. by exists SafeStorage.securityError. }
  split.
  - exact (setItem_then_unreachable_getItem SafeStorage.blocked_browser
             SafeStorage.blocked_browser "moodpaper_api_key"
             "moodpaper_api_key" "abc123" (SafeStorage.empty_store tt) Hgone).
  - exact (setItem_then_unreachable_getItem SafeStorage.blocked_browser
             SafeStorage.blocked_browser "__proto__"
             "__proto__" "abc123" (SafeStorage.empty_store tt) Hgone).
Defined.

(** X3. [removeItem] deletes the key from [memoryStore] whatever the
    browser does with the removal: a later [getItem] that cannot reach
    the storage returns for that key what a plain object without the
    property answers, [null], or the inherited member when the key names
    a member of [Object.prototype], and for every other key what
    [memoryStore] answered before. *)
Theorem removeItem_then_unreachable_getItem {P : Type}
    (B1 B2 : SafeStorage.Browser P) (key key' : string)
    (s : SafeStorage.Store P) :
  StorageSession.unreachable B2 ->
  snd (SafeStorage.getItem B2 key'
         (fst (SafeStorage.removeItem B1 key s)))
  = Normal
      (if decide (key' = key)
       then (if bool_decide (key ∈ SafeStorage.Object_prototype)
             then Some (SafeStorage.Inherited key) else None)
       else SafeStorage.memory_or_null (SafeStorage.memoryStore s) key').
Proof.
  intros Hgone.
  destruct (removeItem_normal B1 key s) as (s1 & -> & Hmem). simpl.
  rewrite (getItem_unreachable B2 key' s1 Hgone), Hmem.
  unfold SafeStorage.memory_or_null, SafeStorage.memory_get.
  case_decide as Hkey.
  - subst key'. rewrite lookup_delete_eq.
    by destruct (bool_decide (key ∈ SafeStorage.Object_prototype)).
  - by rewrite lookup_delete_ne.
Qed.

Lemma removeItem_then_unreachable_getItem_witness :
  snd (SafeStorage.getItem SafeStorage.blocked_browser "k"
         (fst (SafeStorage.removeItem SafeStorage.blocked_browser "k"
                 {| SafeStorage.persistent := tt;
                    SafeStorage.memoryStore := {[ "k" := "v" ]} |})))
  = Normal None
  /\
  snd (SafeStorage.getItem SafeStorage.blocked_browser "toString"
         (fst (SafeStorage.removeItem SafeStorage.blocked_browser "toString"
                 {| SafeStorage.persistent := tt;
                    SafeStorage.memoryStore := {[ "toString" := "v" ]} |})))
  = Normal (Some (SafeStorage.Inherited "toString")).
Proof.
  assert (Hgone : StorageSession.unreachable SafeStorage.blocked_browser).
  { right. intros []. exists tt. right. by exists SafeStorage.securityError. }
  split.
  - exact (removeItem_then_unreachable_getItem SafeStorage.blocked_browser
             SafeStorage.blocked_browser "k" "k"
             {| SafeStorage.persistent := tt;
                SafeStorage.memoryStore := {[ "k" := "v" ]} |} Hgone).
  - exact (removeItem_then_unreachable_getItem SafeStorage.blocked_browser
             SafeStorage.blocked_browser "toString" "toString"
             {| SafeStorage.persistent := tt;
                SafeStorage.memoryStore := {[ "toString" := "v" ]} |} Hgone).
Defined.

(** X4. Over any sequence of [getItem], [setItem] and [removeItem],
    the own properties of [memoryStore] follow the writes and removals
    alone: they end as the initial ones with every [setItem] assigned (an
    assignment to ["__proto__"] that finds no own property of the name
    adds none) and every [removeItem] deleted in order, whatever the
    browser's storage did or threw along the way. *)
Theorem memoryStore_mirrors_session {P : Type}
    (B : SafeStorage.Browser P) (ops : list StorageSession.Op)
    (s : SafeStorage.Store P) :
  SafeStorage.memoryStore (StorageSession.perform_all B ops s)
  = foldl StorageSession.mirror (SafeStorage.memoryStore s) ops.
Proof.
  unfold StorageSession.perform_all.
  revert s. induction ops as [| op ops IH]; intros s; [reflexivity |].
  simpl. rewrite IH. by rewrite perform_memoryStore.
Qed.

(** ** The storage adapter of the zustand store *)

Section ZustandFacts.

Import SafeStorage StorageSession.

Context {P : Type}.
Variable B : Browser P.

Lemma zustand_block_normal {A} (op : Eff P A) (dflt : A) (p : P) :
  exists p' a,
    try_catch
      (let* ok := ZustandStore.storage_guard B in
       if ok : bool then op else ret dflt)
      (fun _ => ret dflt) p = (p', Normal a).
Proof.
  unfold try_catch, bind, ZustandStore.storage_guard, ret.
  destruct (window_defined B); [| by eauto].
  destruct (localStorage_guard B p) as [p1 [[|] | e]]; [| by eauto ..].
  destruct (op p1) as [p2 [a | e]]; eauto.
Qed.

Lemma zustand_getItem_unreachable (name : string) (p : P) :
  unreachable B -> snd (ZustandStore.getItem B name p) = Normal None.
Proof.
  intros [Hwin | Hguard];
    unfold ZustandStore.getItem, try_catch, bind,
      ZustandStore.storage_guard, ret.
  - by rewrite Hwin.
  - destruct (window_defined B); [| reflexivity].
    destruct (Hguard p) as (p' & [-> | [e ->]]); reflexivity.
Qed.

End ZustandFacts.

(** X5. The storage adapter of the zustand store never throws either,
    but it has no in-memory fallback: when the storage cannot be reached,
    a value written with [setItem] is not read back, [getItem] answers
    [null]. *)
Theorem safeLocalStorage_no_fallback {P : Type}
    (B : SafeStorage.Browser P) (name value : string) (p : P) :
  (exists p' r, ZustandStore.getItem B name p = (p', Normal r))
  /\ (exists p', ZustandStore.setItem B name value p = (p', Normal tt))
  /\ (exists p', ZustandStore.removeItem B name p = (p', Normal tt))
  /\ (StorageSession.unreachable B ->
      snd (ZustandStore.getItem B name
             (fst (ZustandStore.setItem B name value p)))
      = Normal None).
Proof.
  split; [apply (zustand_block_normal B) |].
  split; [| split].
  - destruct (zustand_block_normal B
                (SafeStorage.ls_setItem B name value) tt p)
      as (p' & [] & H).
    by exists p'.
  - destruct (zustand_block_normal B (SafeStorage.ls_removeItem B name) tt p)
      as (p' & [] & H).
    by exists p'.
  - intros Hgone. by apply zustand_getItem_unreachable.
Qed.

Lemma safeLocalStorage_no_fallback_witness :
  snd (ZustandStore.getItem SafeStorage.blocked_browser "moodpaper-storage"
         (fst (ZustandStore.setItem SafeStorage.blocked_browser
                 "moodpaper-storage" "{}" tt)))
  = Normal None.
Proof.
  refine (proj2 (proj2 (proj2
            (safeLocalStorage_no_fallback SafeStorage.blocked_browser
               "moodpaper-storage" "{}" tt))) _).
  right. intros []. exists tt. right. by exists SafeStorage.securityError.
Defined.

(** ** More on the Gemini client: what a call does to the module state *)

Section ServiceState.

Import GenAI GeminiService Session Traffic.

Context {Client PS : Type}.
Variable E : Env Client PS.
Implicit Type w : World Client PS.

Lemma models_generateContent_sent ai params w :
  sent (fst (models_generateContent E ai params w)) = sent w ++ [params].
Proof.
  unfold models_generateContent.
  by destruct (provider_generateContent E ai params (provider w)).
Qed.

Lemma generateCreativePrompt_world w ai topic :
  genAI w = Some ai ->
  fst (generateCreativePrompt E topic w)
  = fst (models_generateContent E ai (creative_prompt_request topic) w).
Proof.
  intros Harmed. unfold generateCreativePrompt, try_catch, bind.
  rewrite (getClient_armed _ _ Harmed), await_generateContent_spec.
  destruct (outcome _) as [r | e]; [reflexivity |].
  by destruct (mentions_api_key e).
Qed.

Lemma generateTopicSuggestions_world w ai :
  genAI w = Some ai ->
  fst (generateTopicSuggestions E w)
  = fst (models_generateContent E ai topic_suggestions_request w).
Proof.
  intros Harmed. unfold generateTopicSuggestions, try_catch, bind.
  rewrite (getClient_armed _ _ Harmed), await_generateContent_spec.
  destruct (outcome _) as [r | e]; [reflexivity |].
  by destruct (mentions_api_key e).
Qed.

Lemma validateApiKey_world apiKey w :
  fst (validateApiKey E apiKey w)
  = match new_GoogleGenAI E apiKey with
    | Normal tempAI =>
        fst (models_generateContent E tempAI validation_request w)
    | Throw _ => w
    end.
Proof.
  unfold validateApiKey, try_catch, bind.
  destruct (new_GoogleGenAI E apiKey) as [tempAI | e]; [| reflexivity].
  rewrite await_generateContent_spec.
  by destruct (outcome _).
Qed.

(** Making the images reads the clock twice per image and touches
    nothing else. *)
Lemma mapM_indexed_make_image_world prompt results index w :
  fst (mapM_indexed (make_image E prompt) index results w)
  = {| genAI := genAI w; provider := provider w; sent := sent w;
       clock_reads := (clock_reads w + 2 * length results)%nat |}.
Proof.
  revert index w. induction results as [| url results IH]; intros index w.
  - simpl. destruct w. simpl. f_equal. lia.
  - simpl. unfold bind at 1. unfold make_image at 1.
    unfold bind, Date_now, ret. simpl.
    match goal with
    | |- context [mapM_indexed _ _ _ ?w1] =>
        pose proof (IH (S index) w1) as Hrest;
        destruct (mapM_indexed (make_image E prompt) (S index) results w1)
          as [w2 [imgs | e]]
    end; simpl in *; rewrite Hrest; f_equal; lia.
Qed.

Lemma start_all_genAI n prompt referenceImage w :
  genAI (fst (start_all
                (fun _ : unit => generateSingleImage E prompt referenceImage)
                (replicate n tt) w))
  = genAI w.
Proof.
  revert w. induction n as [| n IH]; intros w; [reflexivity |].
  simpl.
  assert (Hone : genAI (fst (generateSingleImage E prompt referenceImage w))
                 = genAI w).
  { destruct (genAI w) as [ai |] eqn:Hw.
    - by destruct (generateSingleImage_sent E w ai prompt referenceImage Hw).
    - by rewrite (generateSingleImage_unarmed E w _ _ Hw). }
  destruct (generateSingleImage E prompt referenceImage w) as [w1 p].
  specialize (IH w1).
  destruct (start_all _ (replicate n ()) w1) as [w2 ps]. simpl in *.
  congruence.
Qed.

Lemma generateWallpapers_genAI prompt referenceImage w :
  genAI (fst (generateWallpapers E prompt referenceImage w)) = genAI w.
Proof.
  rewrite generateWallpapers_unfold. cbv zeta.
  destruct (outcome (Promise_all _)) as [results | error].
  - rewrite mapM_indexed_make_image_world.
    exact (start_all_genAI 4 prompt referenceImage w).
  - exact (start_all_genAI 4 prompt referenceImage w).
Qed.

(** A call that is not [setApiKey] leaves [genAI] as it is. *)
Lemma perform_genAI c w :
  is_setApiKey c = false -> genAI (fst (perform E c w)) = genAI w.
Proof.
  intros Hc. destruct c as [k | k | topic | | p r | p r]; [done | ..];
    simpl; unfold bind.
  - destruct (validateApiKey_spec E k w) as (w' & b & -> & Hsame & _).
    exact Hsame.
  - destruct (genAI w) as [ai |] eqn:Hw.
    + pose proof (generateCreativePrompt_world w ai topic Hw) as Hfst.
      destruct (generateCreativePrompt E topic w) as [w1 [s | e]];
        simpl in *; subst w1; by rewrite models_generateContent_genAI.
    + by rewrite (generateCreativePrompt_unarmed E w topic Hw).
  - destruct (genAI w) as [ai |] eqn:Hw.
    + pose proof (generateTopicSuggestions_world w ai Hw) as Hfst.
      destruct (generateTopicSuggestions E w) as [w1 [s | e]];
        simpl in *; subst w1; by rewrite models_generateContent_genAI.
    + by rewrite (generateTopicSuggestions_unarmed E w Hw).
  - destruct (genAI w) as [ai |] eqn:Hw.
    + destruct (generateSingleImage_sent E w ai p r Hw) as [Harmed _].
      destruct (generateSingleImage E p r w) as [w1 pr]. simpl in *.
      unfold await. by destruct (outcome pr).
    + by rewrite (generateSingleImage_unarmed E w p r Hw).
  - pose proof (generateWallpapers_genAI p r w) as Hfst.
    by destruct (generateWallpapers E p r w) as [w1 [l | e]].
Qed.

(** The requests a call sends. *)
Lemma perform_sent c w :
  sent (fst (perform E c w)) = sent w ++ expected_requests E (is_armed w) c.
Proof.
  unfold is_armed.
  destruct c as [k | k | topic | | p r | p r]; simpl; unfold bind.
  - unfold setApiKey. destruct (nonempty k); simpl.
    + destruct (new_GoogleGenAI E k); simpl; by rewrite app_nil_r.
    + by rewrite app_nil_r.
  - pose proof (validateApiKey_world k w) as Hfst.
    destruct (validateApiKey E k w) as [w1 [b | e]]; simpl in *; subst w1;
      (destruct (new_GoogleGenAI E k);
       [apply models_generateContent_sent | by rewrite app_nil_r]).
  - destruct (genAI w) as [ai |] eqn:Hw.
    + pose proof (generateCreativePrompt_world w ai topic Hw) as Hfst.
      destruct (generateCreativePrompt E topic w) as [w1 [s | e]];
        simpl in *; subst w1; apply models_generateContent_sent.
    + rewrite (generateCreativePrompt_unarmed E w topic Hw). simpl.
      by rewrite app_nil_r.
  - destruct (genAI w) as [ai |] eqn:Hw.
    + pose proof (generateTopicSuggestions_world w ai Hw) as Hfst.
      destruct (generateTopicSuggestions E w) as [w1 [s | e]];
        simpl in *; subst w1; apply models_generateContent_sent.
    + rewrite (generateTopicSuggestions_unarmed E w Hw). simpl.
      by rewrite app_nil_r.
  - destruct (genAI w) as [ai |] eqn:Hw.
    + destruct (generateSingleImage_sent E w ai p r Hw) as [_ Hsent].
      destruct (generateSingleImage E p r w) as [w1 pr]. simpl in *.
      unfold await. by destruct (outcome pr).
    + rewrite (generateSingleImage_unarmed E w p r Hw). simpl.
      by rewrite app_nil_r.
  - destruct (genAI w) as [ai |] eqn:Hw.
    + assert (Hsent : sent (fst (generateWallpapers E p r w))
                      = sent w ++ replicate 4 (image_request p r)).
      { rewrite generateWallpapers_unfold. cbv zeta.
        destruct (outcome (Promise_all _)) as [results | error].
        - rewrite mapM_indexed_make_image_world.
          exact (start_all_sent E 4 w ai p r Hw).
        - exact (start_all_sent E 4 w ai p r Hw). }
      by destruct (generateWallpapers E p r w) as [w1 [l | e]].
    + rewrite (generateWallpapers_unarmed E w p r Hw). simpl.
      by rewrite app_nil_r.
Qed.

End ServiceState.

Section ServiceSessions.

Import GenAI GeminiService Session Traffic.

Context {Client PS : Type}.
Variable E : Env Client PS.
Implicit Type w : World Client PS.

Lemma perform_armed_after c w :
  is_armed (fst (perform E c w)) = armed_after E (is_armed w) c.
Proof.
  destruct (is_setApiKey c) eqn:Hc.
  - destruct c as [k | | | | |]; try done. simpl. unfold bind, setApiKey.
    destruct (nonempty k); [| reflexivity].
    by destruct (new_GoogleGenAI E k).
  - unfold is_armed. rewrite (perform_genAI E c w Hc).
    by destruct c.
Qed.

Lemma or_else_nonempty (o : option string) (dflt : string) :
  dflt <> "" -> or_else o dflt <> "".
Proof.
  intros Hd. unfold or_else. destruct o as [[| c s] |]; done.
Qed.

End ServiceSessions.

(** X6. [generateCreativePrompt] never returns an empty prompt for a
    topic that is not empty: whatever the provider answers (no text,
    blank text, an error), a prompt that comes back is not the empty
    string. *)
Theorem generateCreativePrompt_never_empty
    {Client PS : Type} (E : GeminiService.Env Client PS)
    (w : GeminiService.World Client PS) (topic newPrompt : string) :
  topic <> "" ->
  snd (GeminiService.generateCreativePrompt E topic w) = Normal newPrompt ->
  newPrompt <> "".
Proof.
  intros Htopic Hrun.
  destruct (GeminiService.genAI w) as [ai |] eqn:Hw.
  - rewrite (generateCreativePrompt_armed E w ai topic Hw) in Hrun.
    destruct (outcome _) as [response | error].
    + injection Hrun as <-. by apply or_else_nonempty.
    + destruct (GeminiService.mentions_api_key error); [done |].
      by injection Hrun as <-.
  - by rewrite (generateCreativePrompt_unarmed E w topic Hw) in Hrun.
Qed.

Lemma generateCreativePrompt_never_empty_witness :
  snd (GeminiService.generateCreativePrompt
         (Stub.scripted
            [Stub.at_tick 1 (Normal (Stub.text_response "   "))])
         "city" (Stub.armed "abc123"))
  = Normal "city"
  /\ "city" <> "".
Proof.
  split; [vm_compute; reflexivity |].
  refine (generateCreativePrompt_never_empty
            (Stub.scripted
               [Stub.at_tick 1 (Normal (Stub.text_response "   "))])
            (Stub.armed "abc123") "city" "city" _ _).
  - discriminate.
  - vm_compute. reflexivity.
Defined.

(** X7. Only [setApiKey] changes the armed client: over any session
    without a call of [setApiKey] (validations, prompts, topics, images,
    whether they succeed or fail) [genAI] ends as it began. *)
Theorem only_setApiKey_changes_genAI
    {Client PS : Type} (E : GeminiService.Env Client PS)
    (w : GeminiService.World Client PS) (calls : list Session.Call) :
  Forall (fun c => Traffic.is_setApiKey c = false) calls ->
  GeminiService.genAI (fst (Session.perform_all E calls w))
  = GeminiService.genAI w.
Proof.
  intros Hcalls. revert w.
  induction Hcalls as [| c calls Hc _ IH]; intros w; [reflexivity |].
  simpl. pose proof (perform_genAI E c w Hc) as Hone.
  destruct (Session.perform E c w) as [w1 a]. simpl in Hone.
  specialize (IH w1).
  destruct (Session.perform_all E calls w1) as [w2 answers]. simpl in *.
  congruence.
Qed.

Lemma only_setApiKey_changes_genAI_witness :
  GeminiService.genAI
    (fst (Session.perform_all (Stub.scripted [])
            [ Session.ValidateApiKey "other";
              Session.GenerateTopicSuggestions;
              Session.GenerateWallpapers "sunset" None ]
            (Stub.armed "abc123")))
  = Some "abc123".
Proof.
  refine (only_setApiKey_changes_genAI (Stub.scripted [])
            (Stub.armed "abc123")
            [ Session.ValidateApiKey "other";
              Session.GenerateTopicSuggestions;
              Session.GenerateWallpapers "sunset" None ] _).
  repeat constructor.
Defined.

(** X8. The requests of a session are exactly these, in order: one per
    [validateApiKey] whose temporary client could be made, one per
    [generateCreativePrompt], [generateTopicSuggestions] and
    [generateSingleImage] and four per [generateWallpapers] while a
    client is armed, none while none is armed and none for [setApiKey].
    Nothing is sent twice: a failed call is not retried. *)
Theorem session_sends_expected_requests
    {Client PS : Type} (E : GeminiService.Env Client PS)
    (w : GeminiService.World Client PS) (calls : list Session.Call) :
  GeminiService.sent (fst (Session.perform_all E calls w))
  = GeminiService.sent w
    ++ Traffic.session_requests E (Traffic.is_armed w) calls.
Proof.
  revert w. induction calls as [| c calls IH]; intros w; simpl.
  - by rewrite app_nil_r.
  - pose proof (perform_sent E c w) as Hsent.
    pose proof (perform_armed_after E c w) as Harmed.
    destruct (Session.perform E c w) as [w1 a]. simpl in Hsent, Harmed.
    specialize (IH w1).
    destruct (Session.perform_all E calls w1) as [w2 answers]. simpl in *.
    by rewrite IH, Hsent, Harmed, app_assoc.
Qed.

Example session_requests_of_a_visit :
  GeminiService.sent
    (fst (Session.perform_all (Stub.scripted [])
            [ Session.GenerateTopicSuggestions;
              Session.ValidateApiKey "abc123";
              Session.SetApiKey "abc123";
              Session.GenerateCreativePrompt "city";
              Session.SetApiKey "";
              Session.GenerateWallpapers "city" None ]
            Stub.unarmed))
  = [ GeminiService.validation_request;
      GeminiService.creative_prompt_request "city" ].
Proof. vm_compute. reflexivity. Qed.

(** X13. [validateApiKey] neither reads nor writes the armed client: its
    answer is the same whatever [genAI] holds, and [genAI] is the same
    afterwards. *)
Theorem validateApiKey_ignores_armed_client
    {Client PS : Type} (E : GeminiService.Env Client PS)
    (w : GeminiService.World Client PS)
    (apiKey : string) (armed : option Client) :
  GeminiService.validateApiKey E apiKey (GeminiService.set_genAI armed w)
  = (GeminiService.set_genAI armed
       (fst (GeminiService.validateApiKey E apiKey w)),
     snd (GeminiService.validateApiKey E apiKey w)).
Proof.
  unfold GeminiService.validateApiKey, try_catch, bind.
  destruct (GeminiService.new_GoogleGenAI E apiKey) as [tempAI | e];
    [| reflexivity].
  unfold GeminiService.await_generateContent,
    GeminiService.models_generateContent, await. simpl.
  destruct (GeminiService.provider_generateContent E tempAI _ _)
    as [ps' reply].
  simpl. by destruct (outcome reply).
Qed.

(** ** More on the image request: the reference image *)

Section Commas.

(** [","] occurs in a string when the string starts with it or its tail
    holds it. *)
Lemma includes_comma_cons (c : Ascii.ascii) (s : string) :
  includes "," (String c s) = Ascii.eqb c comma || includes "," s.
Proof.
  change (includes "," (String c s))
    with (String.prefix "," (String c s) || includes "," s).
  change (String.prefix "," (String c s))
    with (if Ascii.ascii_dec comma c then String.prefix "" s else false).
  destruct (Ascii.ascii_dec comma c) as [<- | Hne].
  - by destruct s.
  - assert (Ascii.eqb c comma = false) as ->; [| reflexivity].
    apply Ascii.eqb_neq. intros ->. by apply Hne.
Qed.

Lemma includes_comma_app (a b : string) :
  includes "," (a +:+ b) = includes "," a || includes "," b.
Proof.
  induction a as [| c a IH]; [by destruct b |].
  change (String c a +:+ b) with (String c (a +:+ b)).
  rewrite !includes_comma_cons, IH. by rewrite orb_assoc.
Qed.

Lemma split_comma_free (s : string) :
  includes "," s = false -> split comma s = [s].
Proof.
  induction s as [| c s IH]; [reflexivity |].
  rewrite includes_comma_cons. intros [Hc Hs]%orb_false_elim.
  simpl. rewrite Hc, (IH Hs). reflexivity.
Qed.

Lemma split_comma_app (a b : string) :
  includes "," a = false ->
  split comma (a +:+ "," +:+ b) = a :: split comma b.
Proof.
  induction a as [| c a IH]; [reflexivity |].
  rewrite includes_comma_cons. intros [Hc Ha]%orb_false_elim.
  change (String c a +:+ "," +:+ b) with (String c (a +:+ "," +:+ b)).
  simpl. rewrite Hc. simpl in IH. rewrite (IH Ha). reflexivity.
Qed.

Lemma app_assoc_string (a b c : string) :
  (a +:+ b) +:+ c = a +:+ (b +:+ c).
Proof.
  induction a as [| x a IH]; [reflexivity |].
  change (String x ((a +:+ b) +:+ c) = String x (a +:+ (b +:+ c))).
  by rewrite IH.
Qed.

End Commas.

(** X9. The remix round trip.  A data URL as [generateSingleImage]
    builds it, ["data:" + mime + ";base64," + data], handed back as the
    reference image, puts exactly that [data] into the request as its
    one inline part, provided neither the MIME type nor the data holds a
    comma and the data is not empty.  The part is always labelled
    [image/png], whatever the MIME type of the URL. *)
Theorem reference_parts_of_data_url (mime d : string) :
  includes "," mime = false ->
  includes "," d = false ->
  d <> "" ->
  GeminiService.reference_parts
    (Some ("data:" +:+ mime +:+ ";base64," +:+ d))
  = [ {| GenAI.inlineData :=
           Some {| GenAI.mimeType := Some "image/png";
                   GenAI.data := Some d |};
         GenAI.text := None |} ].
Proof.
  intros Hmime Hd Hne.
  assert (Hsplit :
    split comma ("data:" +:+ mime +:+ ";base64," +:+ d)
    = ("data:" +:+ mime +:+ ";base64") :: [d]).
  { assert (Hurl : ("data:" +:+ mime +:+ ";base64") +:+ "," +:+ d
                   = "data:" +:+ mime +:+ ";base64," +:+ d).
    { rewrite (app_assoc_string "data:" (mime +:+ ";base64") ("," +:+ d)).
      rewrite (app_assoc_string mime ";base64" ("," +:+ d)).
      reflexivity. }
    rewrite <- Hurl, split_comma_app, (split_comma_free d Hd);
      [reflexivity |].
    rewrite !includes_comma_app, Hmime. reflexivity. }
  unfold GeminiService.reference_parts.
  rewrite Hsplit. simpl. destruct d; [done | reflexivity].
Qed.

Lemma reference_parts_of_data_url_witness :
  GeminiService.reference_parts (Some "data:image/jpeg;base64,QUJD")
  = [ {| GenAI.inlineData :=
           Some {| GenAI.mimeType := Some "image/png";
                   GenAI.data := Some "QUJD" |};
         GenAI.text := None |} ].
Proof.
  exact (reference_parts_of_data_url "image/jpeg" "QUJD"
           eq_refl eq_refl ltac:(discriminate)).
Defined.

(** X10. References that are not sent.  An empty reference string counts
    as no reference at all.  A reference that is not empty but holds no
    comma (so not a data URL) is left out of the request, and yet the
    instruction still asks to remix "this image": the request is the one
    text part. *)
Theorem image_request_without_usable_reference
    (prompt referenceImage : string) :
  GeminiService.image_request prompt (Some "")
  = GeminiService.image_request prompt None
  /\
  (referenceImage <> "" ->
   includes "," referenceImage = false ->
   GeminiService.image_request prompt (Some referenceImage)
   = {| GenAI.model := GeminiService.IMAGE_MODEL_NAME;
        GenAI.contents :=
          GenAI.ContentsParts
            [ {| GenAI.inlineData := None;
                 GenAI.text :=
                   Some ("Remix this image based on these instructions: "
                         +:+ prompt
                         +:+ ". Ensure high quality, aesthetic, phone wallpaper style.") |} ];
        GenAI.aspectRatio := Some "9:16" |}).
Proof.
  split; [reflexivity |].
  intros Hne Hcomma.
  unfold GeminiService.image_request, GeminiService.reference_parts,
    GeminiService.enhancedPrompt.
  rewrite (split_comma_free referenceImage Hcomma).
  destruct referenceImage; [done | reflexivity].
Qed.

Lemma image_request_without_usable_reference_witness :
  GeminiService.image_request "sunset" (Some "https://example.org/a.png")
  = {| GenAI.model := GeminiService.IMAGE_MODEL_NAME;
       GenAI.contents :=
         GenAI.ContentsParts
           [ {| GenAI.inlineData := None;
                GenAI.text :=
                  Some ("Remix this image based on these instructions: "
                        +:+ "sunset"
                        +:+ ". Ensure high quality, aesthetic, phone wallpaper style.") |} ];
       GenAI.aspectRatio := Some "9:16" |}.
Proof.
  exact (proj2 (image_request_without_usable_reference "sunset"
                  "https://example.org/a.png")
           ltac:(discriminate) eq_refl).
Defined.

(** ** More on the set of four: which error is reported *)

Section WhichError.

Context {A : Type}.

Lemma Promise_all_rejection_elem (ps : list (Promise A)) (e : Thrown) :
  outcome (Promise_all ps) = Throw e ->
  exists p, p ∈ ps /\ outcome p = Throw e.
Proof.
  unfold Promise_all.
  destruct (earliest_rejection ps) as [[t e'] |] eqn:Hfirst; [| done].
  simpl. intros [= <-].
  destruct (earliest_rejection_elem ps t e' Hfirst) as (p & Hin & Hout & _).
  by exists p.
Qed.

End WhichError.

Section ProviderRejections.

Import GenAI GeminiService.

Context {Client PS : Type}.
Variable E : Env Client PS.
Implicit Type w : World Client PS.



End ProviderRejections.




(** X11. Which of its two errors [generateWallpapers] throws depends on
    the rejections alone.  If some call is rejected and no rejection
    mentions ["API Key"], the error is the try-again message; if every
    rejection mentions ["API Key"], it is the missing-key message.  The
    errors the calls were rejected with are never passed on. *)
Theorem generateWallpapers_reported_error
    {Client PS : Type} (E : GeminiService.Env Client PS)
    (w : GeminiService.World Client PS)
    (prompt : string) (referenceImage : option string) :
  let promises :=
    snd (GeminiService.start_all
           (fun _ : unit =>
              GeminiService.generateSingleImage E prompt referenceImage)
           (replicate 4 tt) w) in
  let result :=
    snd (GeminiService.generateWallpapers E prompt referenceImage w) in
  Exists (fun p => exists error, outcome p = Throw error) promises ->
  (Forall (fun p => forall error,
             outcome p = Throw error ->
             GeminiService.mentions_api_key error = false) promises ->
   result = Throw (newError GeminiService.wallpapers_failure_message))
  /\
  (Forall (fun p => forall error,
             outcome p = Throw error ->
             GeminiService.mentions_api_key error = true) promises ->
   result = Throw (newError GeminiService.wallpapers_missing_key_message)).
Proof.
  intros promises result Hsome.
  destruct (Promise_all_rejected promises Hsome) as [first Hfirst].
  destruct (Promise_all_rejection_elem promises first Hfirst)
    as (p & Hin & Hout).
  assert (Hresult :
    result
    = Throw (newError
               (if GeminiService.mentions_api_key first
                then GeminiService.wallpapers_missing_key_message
                else GeminiService.wallpapers_failure_message))).
  { unfold result. rewrite generateWallpapers_unfold. cbv zeta.
    fold promises. by rewrite Hfirst. }
  split; intros Hall; rewrite Forall_forall in Hall;
    by rewrite Hresult, (Hall p Hin first Hout).
Qed.

Lemma generateWallpapers_reported_error_witness :
  snd (GeminiService.generateWallpapers
         (Stub.scripted
            [ Stub.at_tick 3 (Normal (Stub.parts_response []));
              Stub.at_tick 1 (Throw Stub.provider_error) ])
         "sunset" None (Stub.armed "abc123"))
  = Throw (newError GeminiService.wallpapers_failure_message).
Proof.
  refine (proj1 (generateWallpapers_reported_error
                   (Stub.scripted
                      [ Stub.at_tick 3 (Normal (Stub.parts_response []));
                        Stub.at_tick 1 (Throw Stub.provider_error) ])
                   (Stub.armed "abc123") "sunset" None _) _).
  - apply Exists_cons_hd. eexists. vm_compute. reflexivity.
  - repeat constructor; intros error; vm_compute; by intros [= <-].
Defined.

(** X12. An answer without text gives no topics, not the built-in ones.
    With a client armed, when the provider answers and the answer's
    [text] is absent or empty, [generateTopicSuggestions] returns the
    empty list. *)
Theorem generateTopicSuggestions_blank_answer
    {Client PS : Type} (E : GeminiService.Env Client PS)
    (w : GeminiService.World Client PS) (ai : Client)
    (response : GenAI.GenerateContentResponse) :
  GeminiService.genAI w = Some ai ->
  outcome (snd (GeminiService.provider_generateContent E ai
                  GeminiService.topic_suggestions_request
                  (GeminiService.provider w)))
  = Normal response ->
  truthy (GenAI.response_text response) = false ->
  snd (GeminiService.generateTopicSuggestions E w) = Normal [].
Proof.
  intros Harmed Hreply Hblank.
  rewrite (generateTopicSuggestions_armed E w ai Harmed), Hreply.
  assert (or_else (GenAI.response_text response) "" = "") as ->.
  { unfold or_else, truthy in *.
    destruct (GenAI.response_text response) as [text |]; [| done].
    by rewrite Hblank. }
  reflexivity.
Qed.

Lemma generateTopicSuggestions_blank_answer_witness :
  snd (GeminiService.generateTopicSuggestions
         (Stub.scripted [Stub.at_tick 1 (Normal (Stub.parts_response []))])
         (Stub.armed "abc123"))
  = Normal [].
Proof.
  exact (generateTopicSuggestions_blank_answer
           (Stub.scripted [Stub.at_tick 1 (Normal (Stub.parts_response []))])
           (Stub.armed "abc123") "abc123" (Stub.parts_response [])
           eq_refl eq_refl eq_refl).
Defined.

(** ** More on the generate handler: how it ends *)

Section GenerateEnds.

Import GeminiService.

Context {Client PS : Type}.
Variable E : Env Client PS.
Implicit Type w : World Client PS.

(** What [generateWallpapers] throws is one of its own two errors. *)
Lemma generateWallpapers_throws prompt referenceImage w error :
  snd (generateWallpapers E prompt referenceImage w) = Throw error ->
  error = newError wallpapers_missing_key_message
  \/ error = newError wallpapers_failure_message.
Proof.
  rewrite generateWallpapers_unfold. cbv zeta.
  destruct (outcome (Promise_all _)) as [results | first].
  - destruct (mapM_indexed_make_image E prompt results 0
                (fst (start_all
                        (fun _ : unit =>
                           generateSingleImage E prompt referenceImage)
                        (replicate 4 tt) w)))
      as (w' & imgs & -> & _).
    done.
  - simpl. intros [= <-].
    destruct (mentions_api_key first); [by left | by right].
Qed.

End GenerateEnds.

(** X14. How [handleGenerate] ends.  With a key present and a prompt that
    is not blank, once the request has settled the loading flag is off
    and the key and prompt are as before.  If the set was made, the
    result set is the new images, there is no error and the remix source
    is cleared.  If it failed, the result set is empty, the remix source
    is kept, and the error shown is one of the two messages of
    [generateWallpapers]: the unknown-error text cannot appear. *)
Theorem handleGenerate_outcome
    {Client PS : Type} (E : GeminiService.Env Client PS)
    (s : App.State) (w : GeminiService.World Client PS) :
  nonempty (App.apiKey s) = true ->
  nonempty (trim (App.prompt s)) = true ->
  let finished := App.handleGenerate E s w in
  let final := App.run (App.run s (fst (fst finished))) (snd (fst finished)) in
  let settled :=
    GeminiService.generateWallpapers E (App.prompt s)
      (Types.url <$> App.remixSource s) w in
  snd finished = fst settled
  /\ App.isLoading final = false
  /\ App.apiKey final = App.apiKey s
  /\ App.prompt final = App.prompt s
  /\ match snd settled with
     | Normal generatedImages =>
         App.images final = generatedImages
         /\ App.error final = None
         /\ App.remixSource final = None
     | Throw _ =>
         App.images final = []
         /\ App.remixSource final = App.remixSource s
         /\ (App.error final
             = Some GeminiService.wallpapers_missing_key_message
             \/ App.error final
                = Some GeminiService.wallpapers_failure_message)
     end.
Proof.
  intros Hkey Hprompt finished final settled.
  unfold final, finished, App.handleGenerate.
  rewrite (handleGenerate_start_guards s Hkey Hprompt). simpl App.requested.
  cbv iota beta.
  pose proof (generateWallpapers_throws E (App.prompt s)
                (Types.url <$> App.remixSource s) w) as Hthrows.
  fold settled in Hthrows |- *.
  destruct settled as [w' [generatedImages | err]]; simpl.
  - destruct (App.remixSource s); repeat split.
  - repeat split.
    destruct (Hthrows err eq_refl) as [-> | ->]; [by left | by right].
Qed.

Lemma handleGenerate_outcome_witness :
  let s :=
    {| App.apiKey := "abc123"; App.isSettingsOpen := false;
       App.prompt := "sunset"; App.images := [];
       App.isLoading := false; App.remixSource := None;
       App.error := None |} in
  let finished := App.handleGenerate (Stub.scripted []) s (Stub.armed "abc123") in
  App.isLoading (App.run (App.run s (fst (fst finished))) (snd (fst finished)))
  = false.
Proof.
  intros s finished.
  exact (proj1 (proj2 (handleGenerate_outcome (Stub.scripted []) s
                         (Stub.armed "abc123") eq_refl eq_refl))).
Defined.

(** X15. What [handleGenerate] does not do.  Without a key its only
    effect is to open the settings dialog; with a key and a blank prompt
    it has no effect at all.  In both cases nothing is asked of the
    service: the result set, the error and the loading flag stay as they
    are and no request is sent. *)
Theorem handleGenerate_guards
    {Client PS : Type} (E : GeminiService.Env Client PS)
    (s : App.State) (w : GeminiService.World Client PS) :
  (App.apiKey s = "" ->
   App.handleGenerate E s w = ([App.SetIsSettingsOpen true], [], w)
   /\ App.run s [App.SetIsSettingsOpen true]
      = {| App.apiKey := ""; App.isSettingsOpen := true;
           App.prompt := App.prompt s; App.images := App.images s;
           App.isLoading := App.isLoading s;
           App.remixSource := App.remixSource s;
           App.error := App.error s |})
  /\
  (App.apiKey s <> "" ->
   trim (App.prompt s) = "" ->
   App.handleGenerate E s w = ([], [], w)).
Proof.
  split.
  - intros Hkey. unfold App.handleGenerate, App.handleGenerate_start.
    rewrite Hkey. split; [reflexivity |].
    destruct s. simpl in *. by subst.
  - intros Hkey Hblank. unfold App.handleGenerate, App.handleGenerate_start.
    rewrite Hblank. by destruct (App.apiKey s).
Qed.

Lemma handleGenerate_guards_witness :
  App.handleGenerate (Stub.scripted [])
    {| App.apiKey := "abc123"; App.isSettingsOpen := false;
       App.prompt := "   "; App.images := [];
       App.isLoading := false; App.remixSource := None;
       App.error := None |}
    (Stub.armed "abc123")
  = ([], [], Stub.armed "abc123").
Proof.
  refine (proj2 (handleGenerate_guards (Stub.scripted [])
                   {| App.apiKey := "abc123"; App.isSettingsOpen := false;
                      App.prompt := "   "; App.images := [];
                      App.isLoading := false; App.remixSource := None;
                      App.error := None |}
                   (Stub.armed "abc123")) _ _).
  - discriminate.
  - vm_compute. reflexivity.
Defined.

(** ** The handlers of the application *)

Section Handlers.

Import Coordinator.

Context {P Client PS : Type}.
Variable B : SafeStorage.Browser P.
Variable E : GeminiService.Env Client PS.
Implicit Type sys : System P Client PS.

Lemma nonempty_true (s : string) : s <> "" -> nonempty s = true.
Proof. by destruct s. Qed.

Lemma nonempty_false (s : string) : nonempty s = false -> s = "".
Proof. by destruct s. Qed.

(** A validated key can be armed: validation made a client of it. *)
Lemma validated_key_constructs (k : string) w :
  snd (GeminiService.validateApiKey E k w) = Normal true ->
  exists client, GeminiService.new_GoogleGenAI E k = Normal client.
Proof.
  intros Hvalid.
  destruct (validateApiKey_spec E k w) as (w' & b & Hrun & _ & Hiff).
  rewrite Hrun in Hvalid. injection Hvalid as ->.
  destruct (proj1 Hiff eq_refl) as (client & _ & Hnew & _). eauto.
Qed.

Lemma validateApiKey_boolean (k : string) w :
  exists b, snd (GeminiService.validateApiKey E k w) = Normal b.
Proof.
  destruct (validateApiKey_spec E k w) as (w' & b & -> & _). eauto.
Qed.

End Handlers.

(** X16. What the save button of the settings dialog does.  A blank key
    only shows the enter-a-key error: nothing is validated, stored or
    armed.  A key the provider rejects only shows the invalid-key error:
    the stored key, the key of the application and the armed client stay
    as they were.  A key the provider accepts is stored trimmed under
    [moodpaper_api_key], becomes the key of the application, arms the
    client and closes the dialog.  After a validation the validating flag
    is off again, and in no case does the handler throw. *)
Theorem handleSave_outcomes {P Client PS : Type}
    (B : SafeStorage.Browser P) (E : GeminiService.Env Client PS)
    (sys : Coordinator.System P Client PS) :
  let k := trim (Coordinator.key (Coordinator.modal sys)) in
  let validation :=
    GeminiService.validateApiKey E k (Coordinator.service sys) in
  let after := fst (Coordinator.handle B E Coordinator.Save sys) in
  snd (Coordinator.handle B E Coordinator.Save sys) = Normal tt
  /\ (k = "" ->
      after
      = {| Coordinator.view := Coordinator.view sys;
           Coordinator.modal :=
             Coordinator.setError (Some Coordinator.empty_key_message)
               (Coordinator.modal sys);
           Coordinator.storage := Coordinator.storage sys;
           Coordinator.service := Coordinator.service sys;
           Coordinator.timers := Coordinator.timers sys |})
  /\ (k <> "" -> snd validation = Normal false ->
      after
      = {| Coordinator.view := Coordinator.view sys;
           Coordinator.modal :=
             {| Coordinator.key := Coordinator.key (Coordinator.modal sys);
                Coordinator.isValidating := false;
                Coordinator.error := Some Coordinator.invalid_key_message |};
           Coordinator.storage := Coordinator.storage sys;
           Coordinator.service := fst validation;
           Coordinator.timers := Coordinator.timers sys |})
  /\ (k <> "" -> snd validation = Normal true ->
      App.apiKey (Coordinator.core (Coordinator.view after)) = k
      /\ App.isSettingsOpen (Coordinator.core (Coordinator.view after))
         = false
      /\ SafeStorage.memoryStore (Coordinator.storage after)
           !! Coordinator.STORAGE_KEY
         = Some k
      /\ Coordinator.modal after
         = {| Coordinator.key := Coordinator.key (Coordinator.modal sys);
              Coordinator.isValidating := false;
              Coordinator.error := None |}
      /\ exists client,
           GeminiService.new_GoogleGenAI E k = Normal client
           /\ GeminiService.genAI (Coordinator.service after) = Some client).
Proof.
  cbv zeta. simpl Coordinator.handle.
  set (k := trim (Coordinator.key (Coordinator.modal sys))).
  unfold Coordinator.handleSave, Coordinator.handleKeySave, bind,
    Coordinator.on_modal, Coordinator.on_view, Coordinator.in_service,
    Coordinator.in_storage, modify, gets, ret.
  fold k. simpl.
  destruct (nonempty k) eqn:Hk; simpl.
  - (* a key was typed *)
    assert (Hne : k <> "") by (intros Hempty; by rewrite Hempty in Hk).
    destruct (validateApiKey_boolean E k (Coordinator.service sys))
      as [b Hb].
    pose proof (validated_key_constructs E k (Coordinator.service sys))
      as Hclient.
    destruct (GeminiService.validateApiKey E k (Coordinator.service sys))
      as [w1 c]. simpl in Hb, Hclient. subst c.
    destruct b; simpl.
    + (* accepted *)
      destruct (Hclient eq_refl) as [client Hnew].
      destruct (setItem_normal B Coordinator.STORAGE_KEY k
                  (Coordinator.storage sys)) as (st1 & -> & Hmem).
      simpl. unfold GeminiService.setApiKey. rewrite Hk, Hnew. simpl.
      split; [reflexivity |].
      split; [done |]. split; [by intros _ [=] |].
      intros _ _. split; [reflexivity |]. split; [reflexivity |].
      split; [rewrite Hmem; by apply memory_set_same; left |].
      split; [by destruct (Coordinator.modal sys) |]. by exists client.
    + (* rejected *)
      split; [reflexivity |].
      split; [done |]. split; [| by intros _ [=]].
      intros _ _. by destruct (Coordinator.modal sys).
  - (* a blank key *)
    apply nonempty_false in Hk.
    split; [reflexivity |]. by split.
Qed.

Lemma handleSave_outcomes_witness :
  App.apiKey
    (Coordinator.core
       (Coordinator.view
          (fst (Coordinator.handle SafeStorage.blocked_browser
                  (Stub.scripted
                     [Stub.at_tick 1 (Normal (Stub.text_response "ok"))])
                  Coordinator.Save
                  (Coordinator.handle_all SafeStorage.blocked_browser
                     (Stub.scripted [])
                     [Coordinator.TypeKey " abc123 "]
                     (Coordinator.boot tt 0%nat))))))
  = "abc123".
Proof.
  refine (proj1 (proj2 (proj2 (proj2
            (handleSave_outcomes SafeStorage.blocked_browser
               (Stub.scripted
                  [Stub.at_tick 1 (Normal (Stub.text_response "ok"))])
               (Coordinator.handle_all SafeStorage.blocked_browser
                  (Stub.scripted [])
                  [Coordinator.TypeKey " abc123 "]
                  (Coordinator.boot tt 0%nat))))) _ _)).
  - vm_compute. discriminate.
  - vm_compute. reflexivity.
Defined.

Section LoadKey.

Import Coordinator.

Context {P Client PS : Type}.
Variable B : SafeStorage.Browser P.
Variable E : GeminiService.Env Client PS.
Implicit Type sys : System P Client PS.

(** The key of the application is no member of [Object.prototype]. *)
Lemma STORAGE_KEY_plain : STORAGE_KEY ∉ SafeStorage.Object_prototype.
Proof. apply (bool_decide_unpack _). vm_compute. exact I. Qed.

(** So the store gives back a string or [null] for it. *)
Lemma getItem_STORAGE_KEY (st : SafeStorage.Store P) :
  exists st' r,
    SafeStorage.getItem B STORAGE_KEY st
    = (st', Normal (SafeStorage.Text <$> r)).
Proof.
  destruct (getItem_normal B STORAGE_KEY st) as (st' & r & Hread).
  destruct r as [[k | name] |].
  - exists st', (Some k). exact Hread.
  - exfalso. apply STORAGE_KEY_plain.
    apply (getItem_inherited B STORAGE_KEY name st). by rewrite Hread.
  - exists st', None. exact Hread.
Qed.

(** The effect, by what the store gives back. *)
Lemma loadKey_unfold sys :
  loadKey B E sys
  = let read := SafeStorage.getItem B STORAGE_KEY (storage sys) in
    match snd read with
    | Normal (Some (SafeStorage.Text k)) =>
        if nonempty k then
          match GeminiService.setApiKey E k (service sys) with
          | (w, Normal _) =>
              ({| view := setIsKeyLoaded true (setApiKeyState k (view sys));
                  modal := modal sys; storage := fst read; service := w;
                  timers := timers sys |}, Normal tt)
          | (w, Throw e) =>
              ({| view := setApiKeyState k (view sys);
                  modal := modal sys; storage := fst read; service := w;
                  timers := timers sys |}, Throw e)
          end
        else
          ({| view := setIsKeyLoaded true (view sys);
              modal := modal sys; storage := fst read;
              service := service sys;
              timers := timers sys ++ [OpenSettingsLater] |}, Normal tt)
    | Normal (Some (SafeStorage.Inherited _)) =>
        ({| view := setIsKeyLoaded true (view sys);
            modal := modal sys; storage := fst read;
            service := service sys; timers := timers sys |}, Normal tt)
    | Normal None =>
        ({| view := setIsKeyLoaded true (view sys);
            modal := modal sys; storage := fst read;
            service := service sys;
            timers := timers sys ++ [OpenSettingsLater] |}, Normal tt)
    | Throw e =>
        ({| view := view sys; modal := modal sys; storage := fst read;
            service := service sys; timers := timers sys |}, Throw e)
    end.
Proof.
  unfold loadKey, bind, in_storage, in_service, on_view, setTimeout, modify,
    ret.
  destruct (SafeStorage.getItem B STORAGE_KEY (storage sys))
    as [st [[[k | name] |] | e]]; simpl; try reflexivity.
  destruct (nonempty k); simpl; [| reflexivity].
  by destruct (GeminiService.setApiKey E k (service sys)) as [w [[] | e]].
Qed.

End LoadKey.

(** X17. What the effect after the first render does.  If the store gives
    back a key that is not empty, the key becomes the key of the
    application and the client is armed with it; no dialog is scheduled.
    If the store gives back nothing, or the empty string, the key and the
    client stay as they are and the settings dialog is scheduled to open.
    Either way the key counts as loaded. *)
Theorem loadKey_outcomes {P Client PS : Type}
    (B : SafeStorage.Browser P) (E : GeminiService.Env Client PS)
    (sys : Coordinator.System P Client PS) :
  let read :=
    SafeStorage.getItem B Coordinator.STORAGE_KEY (Coordinator.storage sys) in
  (forall k client,
     snd read = Normal (Some (SafeStorage.Text k)) ->
     k <> "" ->
     GeminiService.new_GoogleGenAI E k = Normal client ->
     Coordinator.handle B E Coordinator.Mount sys
     = ({| Coordinator.view :=
             Coordinator.setIsKeyLoaded true
               (Coordinator.setApiKeyState k (Coordinator.view sys));
           Coordinator.modal := Coordinator.modal sys;
           Coordinator.storage := fst read;
           Coordinator.service :=
             GeminiService.set_genAI (Some client) (Coordinator.service sys);
           Coordinator.timers := Coordinator.timers sys |},
        Normal tt))
  /\
  (snd read = Normal None
   \/ snd read = Normal (Some (SafeStorage.Text "")) ->
   Coordinator.handle B E Coordinator.Mount sys
   = ({| Coordinator.view :=
           Coordinator.setIsKeyLoaded true (Coordinator.view sys);
         Coordinator.modal := Coordinator.modal sys;
         Coordinator.storage := fst read;
         Coordinator.service := Coordinator.service sys;
         Coordinator.timers :=
           Coordinator.timers sys ++ [Coordinator.OpenSettingsLater] |},
      Normal tt)).
Proof.
  intros read. simpl Coordinator.handle. rewrite loadKey_unfold.
  cbv zeta. fold read. split.
  - intros k client -> Hk Hnew. simpl.
    rewrite (nonempty_true k Hk). unfold GeminiService.setApiKey.
    rewrite (nonempty_true k Hk), Hnew. reflexivity.
  - by intros [-> | ->].
Qed.

Lemma loadKey_outcomes_witness :
  Coordinator.timers
    (fst (Coordinator.handle SafeStorage.blocked_browser (Stub.scripted [])
            Coordinator.Mount (Coordinator.boot tt 0%nat)))
  = [Coordinator.OpenSettingsLater].
Proof.
  exact (f_equal (fun r => Coordinator.timers (fst r))
           (proj2 (loadKey_outcomes SafeStorage.blocked_browser
                     (Stub.scripted []) (Coordinator.boot tt 0%nat))
              (or_introl eq_refl))).
Defined.

(** ** The handlers and the credentials *)

Section HandlerFrames.

Import Coordinator Conditions.

Context {P Client PS : Type}.
Variable B : SafeStorage.Browser P.
Variable E : GeminiService.Env Client PS.
Implicit Type sys : System P Client PS.

Lemma generateCreativePrompt_genAI topic (w : GeminiService.World Client PS) :
  GeminiService.genAI (fst (GeminiService.generateCreativePrompt E topic w))
  = GeminiService.genAI w.
Proof.
  pose proof (perform_genAI E (Session.GenerateCreativePrompt topic) w
                eq_refl) as H.
  simpl in H. unfold bind in H.
  by destruct (GeminiService.generateCreativePrompt E topic w) as [w1 [s | e]].
Qed.

Lemma generateTopicSuggestions_genAI (w : GeminiService.World Client PS) :
  GeminiService.genAI (fst (GeminiService.generateTopicSuggestions E w))
  = GeminiService.genAI w.
Proof.
  pose proof (perform_genAI E Session.GenerateTopicSuggestions w eq_refl)
    as H.
  simpl in H. unfold bind in H.
  by destruct (GeminiService.generateTopicSuggestions E w) as [w1 [s | e]].
Qed.

(** [handleGenerate] keeps the key and the armed client and lowers the
    loading flag it raised. *)
Lemma App_handleGenerate_frame (s : App.State)
    (w : GeminiService.World Client PS) :
  let finished := App.handleGenerate E s w in
  let final := App.run (App.run s (fst (fst finished))) (snd (fst finished)) in
  App.apiKey final = App.apiKey s
  /\ GeminiService.genAI (snd finished) = GeminiService.genAI w
  /\ (App.isLoading s = false -> App.isLoading final = false).
Proof.
  cbv zeta. unfold App.handleGenerate, App.handleGenerate_start.
  destruct (nonempty (App.apiKey s)); simpl; [| by repeat split].
  destruct (nonempty (trim (App.prompt s))); simpl; [| by repeat split].
  pose proof (generateWallpapers_genAI E (App.prompt s)
                (Types.url <$> App.remixSource s) w) as Hsame.
  destruct (GeminiService.generateWallpapers E (App.prompt s)
              (Types.url <$> App.remixSource s) w) as [w' [imgs | err]];
    simpl in *.
  - by destruct (App.remixSource s).
  - done.
Qed.

Lemma checkApiKey_spec sys :
  checkApiKey sys
  = if nonempty (App.apiKey (core (view sys))) then (sys, Normal true)
    else ({| view := setIsSettingsOpen true (view sys); modal := modal sys;
             storage := storage sys; service := service sys;
             timers := timers sys |}, Normal false).
Proof.
  unfold checkApiKey, bind, gets, on_view, modify, ret. simpl.
  by destruct (nonempty (App.apiKey (core (view sys)))).
Qed.

(** The shared part of the prompt handlers: the prompt is replaced when
    the service returns one and kept when it throws. *)
Lemma craft_spec topic sys :
  craft E topic sys
  = let crafted :=
      GeminiService.generateCreativePrompt E topic (service sys) in
    ({| view :=
          setIsGeneratingPrompt false
            (match snd crafted with
             | Normal newPrompt =>
                 setPrompt newPrompt (setIsGeneratingPrompt true (view sys))
             | Throw _ => setIsGeneratingPrompt true (view sys)
             end);
        modal := modal sys; storage := storage sys;
        service := fst crafted; timers := timers sys |},
     Normal tt).
Proof.
  unfold craft, bind, try_catch, on_view, in_service, modify, ret. simpl.
  by destruct (GeminiService.generateCreativePrompt E topic (service sys))
    as [w [newPrompt | e]].
Qed.

Lemma refreshTopics_spec sys :
  refreshTopics E sys
  = if nonempty (App.apiKey (core (view sys))) then
      let suggested :=
        GeminiService.generateTopicSuggestions E (service sys) in
      ({| view :=
            setIsRefreshingTopics false
              (match snd suggested with
               | Normal newTopics =>
                   setActiveTheme ""
                     (setTopics newTopics
                        (setIsRefreshingTopics true (view sys)))
               | Throw _ => setIsRefreshingTopics true (view sys)
               end);
          modal := modal sys; storage := storage sys;
          service := fst suggested; timers := timers sys |},
       Normal tt)
    else ({| view := setIsSettingsOpen true (view sys); modal := modal sys;
             storage := storage sys; service := service sys;
             timers := timers sys |}, Normal tt).
Proof.
  unfold refreshTopics. unfold bind at 1. rewrite checkApiKey_spec.
  destruct (nonempty (App.apiKey (core (view sys)))); [| reflexivity].
  unfold bind, try_catch, on_view, in_service, modify, ret. simpl.
  by destruct (GeminiService.generateTopicSuggestions E (service sys))
    as [w [newTopics | e]].
Qed.

Lemma handlePresetTopicSelect_spec topic sys :
  handlePresetTopicSelect E topic sys
  = if nonempty (App.apiKey (core (view sys))) then
      if nonempty topic then
        craft E topic
          {| view := setCustomTopic "" (setActiveTheme topic (view sys));
             modal := modal sys; storage := storage sys;
             service := service sys; timers := timers sys |}
      else (sys, Normal tt)
    else ({| view := setIsSettingsOpen true (view sys); modal := modal sys;
             storage := storage sys; service := service sys;
             timers := timers sys |}, Normal tt).
Proof.
  unfold handlePresetTopicSelect. unfold bind at 1. rewrite checkApiKey_spec.
  destruct (nonempty (App.apiKey (core (view sys)))); [| reflexivity].
  by destruct (nonempty topic).
Qed.

Lemma handleCustomTopicSubmit_spec sys :
  handleCustomTopicSubmit E sys
  = if nonempty (App.apiKey (core (view sys))) then
      if nonempty (trim (customTopic (view sys))) then
        craft E (customTopic (view sys))
          {| view := setActiveTheme (customTopic (view sys)) (view sys);
             modal := modal sys; storage := storage sys;
             service := service sys; timers := timers sys |}
      else (sys, Normal tt)
    else ({| view := setIsSettingsOpen true (view sys); modal := modal sys;
             storage := storage sys; service := service sys;
             timers := timers sys |}, Normal tt).
Proof.
  unfold handleCustomTopicSubmit. unfold bind at 1, gets.
  unfold bind at 1. rewrite checkApiKey_spec.
  destruct (nonempty (App.apiKey (core (view sys)))); [| reflexivity].
  by destruct (nonempty (trim (customTopic (view sys)))).
Qed.

Lemma refreshPrompt_spec sys :
  refreshPrompt E sys
  = if nonempty (App.apiKey (core (view sys))) then
      if nonempty (activeTheme (view sys)) then
        craft E (activeTheme (view sys)) sys
      else (sys, Normal tt)
    else ({| view := setIsSettingsOpen true (view sys); modal := modal sys;
             storage := storage sys; service := service sys;
             timers := timers sys |}, Normal tt).
Proof.
  unfold refreshPrompt. unfold bind at 1, gets.
  unfold bind at 1. rewrite checkApiKey_spec.
  destruct (nonempty (App.apiKey (core (view sys)))); [| reflexivity].
  by destruct (nonempty (activeTheme (view sys))).
Qed.

(** A timer that fires only opens the settings dialog. *)
Lemma fire_all_frame (ts : list Timer) (v : View) :
  let v' := foldl (fun v t => fire t v) v ts in
  App.apiKey (core v') = App.apiKey (core v)
  /\ App.isLoading (core v') = App.isLoading (core v)
  /\ isGeneratingPrompt v' = isGeneratingPrompt v
  /\ isRefreshingTopics v' = isRefreshingTopics v.
Proof.
  revert v. induction ts as [| [] ts IH]; intros v; [done |].
  simpl. destruct (IH (setIsSettingsOpen true v)) as (H1 & H2 & H3 & H4).
  simpl in *. by rewrite H1, H2, H3, H4.
Qed.

(** Every event but the mount effect and the save button: the handler
    does not throw, keeps the key and the armed client, and leaves no
    busy flag raised. *)
Lemma handle_frame ev sys :
  ev <> Mount -> ev <> Save ->
  snd (handle B E ev sys) = Normal tt
  /\ App.apiKey (core (view (fst (handle B E ev sys))))
     = App.apiKey (core (view sys))
  /\ GeminiService.genAI (service (fst (handle B E ev sys)))
     = GeminiService.genAI (service sys)
  /\ (idle sys -> idle (fst (handle B E ev sys))).
Proof.
  intros HMount HSave. unfold idle.
  destruct ev; try done; simpl handle;
    try (unfold on_view, on_modal, handleRemixStart, clearRemix, bind,
           modify; simpl; intuition congruence).
  - (* TimersFire *)
    unfold fire_timers, modify. simpl.
    destruct (fire_all_frame (timers sys) (view sys)) as (H1 & H2 & H3 & H4).
    rewrite H1, H2, H3, H4. intuition congruence.
  - (* SelectPreset *)
    rewrite handlePresetTopicSelect_spec.
    destruct (nonempty (App.apiKey (core (view sys))));
      [| simpl; intuition congruence].
    destruct (nonempty topic); [| intuition congruence].
    rewrite craft_spec. cbv zeta. simpl.
    rewrite generateCreativePrompt_genAI.
    destruct (snd (GeminiService.generateCreativePrompt E topic (service sys)));
      simpl; intuition congruence.
  - (* SubmitCustomTopic *)
    rewrite handleCustomTopicSubmit_spec.
    destruct (nonempty (App.apiKey (core (view sys))));
      [| simpl; intuition congruence].
    destruct (nonempty (trim (customTopic (view sys))));
      [| intuition congruence].
    rewrite craft_spec. cbv zeta. simpl.
    rewrite generateCreativePrompt_genAI.
    destruct (snd (GeminiService.generateCreativePrompt E _ (service sys)));
      simpl; intuition congruence.
  - (* RefreshPrompt *)
    rewrite refreshPrompt_spec.
    destruct (nonempty (App.apiKey (core (view sys))));
      [| simpl; intuition congruence].
    destruct (nonempty (activeTheme (view sys))); [| intuition congruence].
    rewrite craft_spec. cbv zeta. simpl.
    rewrite generateCreativePrompt_genAI.
    destruct (snd (GeminiService.generateCreativePrompt E _ (service sys)));
      simpl; intuition congruence.
  - (* RefreshTopics *)
    rewrite refreshTopics_spec.
    destruct (nonempty (App.apiKey (core (view sys))));
      [| simpl; intuition congruence].
    cbv zeta. simpl. rewrite generateTopicSuggestions_genAI.
    destruct (snd (GeminiService.generateTopicSuggestions E (service sys)));
      simpl; intuition congruence.
  - (* Generate *)
    unfold handleGenerate.
    pose proof (App_handleGenerate_frame (core (view sys)) (service sys))
      as Hframe. cbv zeta in Hframe.
    destruct (App.handleGenerate E (core (view sys)) (service sys))
      as [[start settle] w]. simpl in *. intuition congruence.
Qed.

(** The save button, by the three ways it can go. *)
Lemma handleSave_cases sys :
  let k := trim (key (modal sys)) in
  let validation := GeminiService.validateApiKey E k (service sys) in
  (k = ""
   /\ handle B E Save sys
      = ({| view := view sys;
            modal := setError (Some empty_key_message) (modal sys);
            storage := storage sys; service := service sys;
            timers := timers sys |}, Normal tt))
  \/ (k <> "" /\ snd validation = Normal false
      /\ handle B E Save sys
         = ({| view := view sys;
               modal := {| key := key (modal sys); isValidating := false;
                           error := Some invalid_key_message |};
               storage := storage sys; service := fst validation;
               timers := timers sys |}, Normal tt))
  \/ (k <> "" /\ snd validation = Normal true
      /\ exists client,
           GeminiService.new_GoogleGenAI E k = Normal client
           /\ handle B E Save sys
              = ({| view := setIsSettingsOpen false
                              (setApiKeyState k (view sys));
                    modal := {| key := key (modal sys);
                                isValidating := false; error := None |};
                    storage :=
                      fst (SafeStorage.setItem B STORAGE_KEY k (storage sys));
                    service :=
                      GeminiService.set_genAI (Some client) (fst validation);
                    timers := timers sys |}, Normal tt)).
Proof.
  cbv zeta. simpl handle.
  set (k := trim (key (modal sys))).
  unfold handleSave, handleKeySave, bind, on_modal, on_view, in_service,
    in_storage, modify, gets, ret.
  fold k. simpl.
  destruct (nonempty k) eqn:Hk; simpl.
  - assert (Hne : k <> "") by (intros Hempty; by rewrite Hempty in Hk).
    right.
    destruct (validateApiKey_boolean E k (service sys)) as [b Hb].
    pose proof (validated_key_constructs E k (service sys)) as Hclient.
    destruct (GeminiService.validateApiKey E k (service sys)) as [w1 c].
    simpl in Hb, Hclient. subst c.
    destruct b; simpl.
    + right. destruct (Hclient eq_refl) as [client Hnew].
      split; [done |]. split; [done |]. exists client. split; [done |].
      destruct (setItem_normal B STORAGE_KEY k (storage sys))
        as (st1 & -> & _).
      simpl. unfold GeminiService.setApiKey. rewrite Hk, Hnew. simpl.
      by destruct (modal sys).
    + left. split; [done |]. split; [done |]. by destruct (modal sys).
  - left. by apply nonempty_false in Hk.
Qed.

(** The mount effect throws only if the SDK refuses the saved key. *)
Lemma loadKey_cases sys :
  let read := SafeStorage.getItem B STORAGE_KEY (storage sys) in
  (exists k, k <> "" /\ snd read = Normal (Some (SafeStorage.Text k))
     /\ ((exists client,
            GeminiService.new_GoogleGenAI E k = Normal client
            /\ loadKey B E sys
               = ({| view := setIsKeyLoaded true (setApiKeyState k (view sys));
                     modal := modal sys; storage := fst read;
                     service :=
                       GeminiService.set_genAI (Some client) (service sys);
                     timers := timers sys |}, Normal tt))
         \/ (exists e,
               GeminiService.new_GoogleGenAI E k = Throw e
               /\ loadKey B E sys
                  = ({| view := setApiKeyState k (view sys);
                        modal := modal sys; storage := fst read;
                        service := service sys; timers := timers sys |},
                     Throw e))))
  \/ ((snd read = Normal None
       \/ snd read = Normal (Some (SafeStorage.Text "")))
      /\ loadKey B E sys
         = ({| view := setIsKeyLoaded true (view sys); modal := modal sys;
               storage := fst read; service := service sys;
               timers := timers sys ++ [OpenSettingsLater] |}, Normal tt)).
Proof.
  cbv zeta. rewrite loadKey_unfold. cbv zeta.
  destruct (getItem_STORAGE_KEY B (storage sys)) as (st & r & ->).
  simpl. destruct r as [[| c k] |]; simpl.
  - right. split; [by right | done].
  - left. exists (String c k). split; [done |]. split; [done |].
    unfold GeminiService.setApiKey. simpl.
    destruct (GeminiService.new_GoogleGenAI E (String c k)) as [client | e].
    + left. by exists client.
    + right. by exists e.
  - right. split; [by left | done].
Qed.

End HandlerFrames.

Section HandlerInvariants.

Import Coordinator Conditions.

Context {P Client PS : Type}.
Variable B : SafeStorage.Browser P.
Variable E : GeminiService.Env Client PS.
Implicit Type sys : System P Client PS.

Lemma Event_cases (ev : Event) :
  ev = Mount \/ ev = Save \/ (ev <> Mount /\ ev <> Save).
Proof. destruct ev; auto; right; right; by split. Qed.

Lemma handle_keeps_agreement ev sys :
  constructs_every_key E ->
  credentials_agree E sys ->
  credentials_agree E (fst (handle B E ev sys)).
Proof.
  intros Hsdk Hagree. unfold credentials_agree in *.
  destruct (Event_cases ev) as [-> | [-> | [HMount HSave]]].
  - simpl handle.
    destruct (loadKey_cases B E sys)
      as [(k & Hk & _ & [(client & Hnew & ->) | (e & Hnew & _)]) | [_ ->]];
      simpl; [done | | done].
    destruct (Hsdk k Hk) as [client Hclient]. congruence.
  - destruct (handleSave_cases B E sys)
      as [[_ ->] | [(_ & _ & ->) | (Hk & _ & client & Hnew & ->)]]; simpl;
      [done | | done].
    destruct (validateApiKey_spec E (trim (key (modal sys))) (service sys))
      as (w' & b & Hrun & Hsame & _).
    rewrite Hrun. simpl. by rewrite Hsame.
  - destruct (handle_frame B E ev sys HMount HSave) as (_ & -> & -> & _).
    done.
Qed.

Lemma handle_keeps_idle ev sys :
  idle sys -> idle (fst (handle B E ev sys)).
Proof.
  intros Hidle.
  destruct (Event_cases ev) as [-> | [-> | [HMount HSave]]].
  - simpl handle. unfold idle in *.
    destruct (loadKey_cases B E sys)
      as [(k & _ & _ & [(client & _ & ->) | (e & _ & ->)]) | [_ ->]];
      simpl; done.
  - unfold idle in *.
    destruct (handleSave_cases B E sys)
      as [[_ ->] | [(_ & _ & ->) | (_ & _ & client & _ & ->)]]; simpl;
      intuition congruence.
  - destruct (handle_frame B E ev sys HMount HSave) as (_ & _ & _ & H).
    by apply H.
Qed.

End HandlerInvariants.

(** X18. The key on the screen and the armed client never part.  If the
    SDK makes a client of every key that is not empty, then from a state
    in which they agree (no key and no client, or a key and the client
    made of it), they agree after any sequence of events: the mount
    effect, saving a key, every other handler. *)
Theorem credentials_stay_in_agreement {P Client PS : Type}
    (B : SafeStorage.Browser P) (E : GeminiService.Env Client PS)
    (evs : list Coordinator.Event) (sys : Coordinator.System P Client PS) :
  Conditions.constructs_every_key E ->
  Conditions.credentials_agree E sys ->
  Conditions.credentials_agree E (Coordinator.handle_all B E evs sys).
Proof.
  intros Hsdk. unfold Coordinator.handle_all. revert sys.
  induction evs as [| ev evs IH]; intros sys Hagree; [done |].
  simpl. apply IH. by apply handle_keeps_agreement.
Qed.

Lemma credentials_stay_in_agreement_witness :
  Conditions.credentials_agree
    (Stub.scripted [Stub.at_tick 1 (Normal (Stub.text_response "ok"))])
    (Coordinator.handle_all SafeStorage.blocked_browser
       (Stub.scripted [Stub.at_tick 1 (Normal (Stub.text_response "ok"))])
       [ Coordinator.Mount; Coordinator.TypeKey "abc123"; Coordinator.Save;
         Coordinator.Generate ]
       (Coordinator.boot tt 0%nat)).
Proof.
  apply credentials_stay_in_agreement.
  - intros k _. by exists k.
  - reflexivity.
Defined.

(** X19. No busy flag is left raised.  From a state in which the loading,
    prompt-writing, topic-refreshing and validating flags are all off,
    they are all off again after any sequence of events, whether the
    calls of the service succeeded or failed. *)
Theorem no_busy_flag_left_raised {P Client PS : Type}
    (B : SafeStorage.Browser P) (E : GeminiService.Env Client PS)
    (evs : list Coordinator.Event) (sys : Coordinator.System P Client PS) :
  Conditions.idle sys ->
  Conditions.idle (Coordinator.handle_all B E evs sys).
Proof.
  unfold Coordinator.handle_all. revert sys.
  induction evs as [| ev evs IH]; intros sys Hidle; [done |].
  simpl. apply IH. by apply handle_keeps_idle.
Qed.

Lemma no_busy_flag_left_raised_witness :
  Conditions.idle
    (Coordinator.handle_all SafeStorage.blocked_browser (Stub.scripted [])
       [ Coordinator.Mount; Coordinator.TypeKey "abc123"; Coordinator.Save;
         Coordinator.RefreshTopics; Coordinator.Generate ]
       (Coordinator.boot tt 0%nat)).
Proof.
  apply no_busy_flag_left_raised. by repeat split.
Defined.

(** X20. Which handlers can throw.  No handler of an event other than the
    mount effect throws, whatever the storage and the provider do.  The
    mount effect throws only when the SDK refuses to make a client of
    the saved key; if the SDK makes a client of every key that is not
    empty, it does not throw either. *)
Theorem handlers_do_not_throw {P Client PS : Type}
    (B : SafeStorage.Browser P) (E : GeminiService.Env Client PS)
    (sys : Coordinator.System P Client PS) :
  (forall ev,
     ev <> Coordinator.Mount ->
     snd (Coordinator.handle B E ev sys) = Normal tt)
  /\ (Conditions.constructs_every_key E ->
      snd (Coordinator.handle B E Coordinator.Mount sys) = Normal tt).
Proof.
  split.
  - intros ev HMount.
    destruct (Event_cases ev) as [-> | [-> | [_ HSave]]]; [done | |].
    + destruct (handleSave_cases B E sys)
        as [[_ ->] | [(_ & _ & ->) | (_ & _ & client & _ & ->)]]; done.
    + by destruct (handle_frame B E ev sys HMount HSave) as (H & _).
  - intros Hsdk. simpl Coordinator.handle.
    destruct (loadKey_cases B E sys)
      as [(k & Hk & _ & [(client & _ & ->) | (e & Hnew & _)]) | [_ ->]];
      [done | | done].
    destruct (Hsdk k Hk) as [client Hclient]. congruence.
Qed.

Lemma handlers_do_not_throw_witness :
  snd (Coordinator.handle SafeStorage.blocked_browser (Stub.scripted [])
         Coordinator.Generate (Coordinator.boot tt 0%nat))
  = Normal tt.
Proof.
  refine (proj1 (handlers_do_not_throw SafeStorage.blocked_browser
                   (Stub.scripted []) (Coordinator.boot tt 0%nat))
            Coordinator.Generate _).
  discriminate.
Defined.

Section SavedKey.

Import Coordinator.

Context {P : Type}.
Variable B : SafeStorage.Browser P.

Lemma unreachable_read_of_written_key (k : string)
    (st : SafeStorage.Store P) :
  StorageSession.unreachable B ->
  k <> "" ->
  snd (SafeStorage.getItem B STORAGE_KEY
         (fst (SafeStorage.setItem B STORAGE_KEY k st)))
  = Normal (Some (SafeStorage.Text k)).
Proof.
  intros Hgone Hk.
  destruct (setItem_normal B STORAGE_KEY k st) as (st1 & -> & Hmem). simpl.
  rewrite (getItem_unreachable B STORAGE_KEY st1 Hgone), Hmem.
  unfold SafeStorage.memory_or_null, SafeStorage.memory_get.
  rewrite memory_set_same by (by left).
  by rewrite (nonempty_true k Hk).
Qed.

End SavedKey.

(** X21. The saved key is found again without storage.  When the storage
    cannot be reached and the save button stored an accepted key, the
    mount effect run afterwards in the same page reads that key back
    from memory: the key and the client made of it are in place and no
    settings dialog is scheduled. *)
Theorem saved_key_found_again_without_storage {P Client PS : Type}
    (B : SafeStorage.Browser P) (E : GeminiService.Env Client PS)
    (sys : Coordinator.System P Client PS) :
  let k := trim (Coordinator.key (Coordinator.modal sys)) in
  let after :=
    Coordinator.handle_all B E [Coordinator.Save; Coordinator.Mount] sys in
  StorageSession.unreachable B ->
  k <> "" ->
  snd (GeminiService.validateApiKey E k (Coordinator.service sys))
  = Normal true ->
  App.apiKey (Coordinator.core (Coordinator.view after)) = k
  /\ Coordinator.isKeyLoaded (Coordinator.view after) = true
  /\ Coordinator.timers after = Coordinator.timers sys
  /\ exists client,
       GeminiService.new_GoogleGenAI E k = Normal client
       /\ GeminiService.genAI (Coordinator.service after) = Some client.
Proof.
  intros k after Hgone Hk Hvalid.
  change after
    with (fst (Coordinator.handle B E Coordinator.Mount
                 (fst (Coordinator.handle B E Coordinator.Save sys)))).
  destruct (handleSave_cases B E sys)
    as [[Hblank _] | [(_ & Hfalse & _) | (_ & _ & client & Hnew & ->)]].
  - done.
  - fold k in Hfalse. congruence.
  - fold k in Hnew |- *. cbn [fst].
    simpl Coordinator.handle. rewrite loadKey_unfold. cbv zeta.
    cbn [Coordinator.storage Coordinator.service Coordinator.view
         Coordinator.modal Coordinator.timers].
    rewrite (unreachable_read_of_written_key B k
               (Coordinator.storage sys) Hgone Hk).
    rewrite (nonempty_true k Hk). unfold GeminiService.setApiKey.
    rewrite (nonempty_true k Hk), Hnew. simpl.
    repeat split. by exists client.
Qed.

Lemma saved_key_found_again_without_storage_witness :
  Coordinator.timers
    (Coordinator.handle_all SafeStorage.blocked_browser
       (Stub.scripted [Stub.at_tick 1 (Normal (Stub.text_response "ok"))])
       [Coordinator.Save; Coordinator.Mount]
       (Coordinator.handle_all SafeStorage.blocked_browser
          (Stub.scripted []) [Coordinator.TypeKey "abc123"]
          (Coordinator.boot tt 0%nat)))
  = [].
Proof.
  refine (proj1 (proj2 (proj2
            (saved_key_found_again_without_storage
               SafeStorage.blocked_browser
               (Stub.scripted
                  [Stub.at_tick 1 (Normal (Stub.text_response "ok"))])
               (Coordinator.handle_all SafeStorage.blocked_browser
                  (Stub.scripted []) [Coordinator.TypeKey "abc123"]
                  (Coordinator.boot tt 0%nat))
               _ _ _)))).
  - right. intros []. exists tt. right.
    by exists SafeStorage.securityError.
  - vm_compute. discriminate.
  - vm_compute. reflexivity.
Defined.

(** X22. A page that cannot reach its storage starts with onboarding.
    When the storage cannot be reached, then in a fresh page, whatever
    the persistent store holds, the mount effect finds no key: once its
    timer has fired the settings dialog is open, the key is empty and
    counts as loaded, no client is armed and nothing was sent. *)
Theorem fresh_page_without_storage_opens_settings {P Client PS : Type}
    (B : SafeStorage.Browser P) (E : GeminiService.Env Client PS)
    (p : P) (ps : PS) :
  StorageSession.unreachable B ->
  let after :=
    Coordinator.handle_all B E [Coordinator.Mount; Coordinator.TimersFire]
      (Coordinator.boot p ps) in
  App.isSettingsOpen (Coordinator.core (Coordinator.view after)) = true
  /\ App.apiKey (Coordinator.core (Coordinator.view after)) = ""
  /\ Coordinator.isKeyLoaded (Coordinator.view after) = true
  /\ GeminiService.genAI (Coordinator.service after) = None
  /\ GeminiService.sent (Coordinator.service after) = []
  /\ Coordinator.timers after = [].
Proof.
  intros Hgone after.
  assert (Hmount :
    Coordinator.handle B E Coordinator.Mount (Coordinator.boot p ps)
    = ({| Coordinator.view :=
            Coordinator.setIsKeyLoaded true Coordinator.initial_view;
          Coordinator.modal := Coordinator.initial_modal;
          Coordinator.storage :=
            fst (SafeStorage.getItem B Coordinator.STORAGE_KEY
                   (SafeStorage.empty_store p));
          Coordinator.service :=
            Coordinator.service (Coordinator.boot p ps);
          Coordinator.timers := [Coordinator.OpenSettingsLater] |},
       Normal tt)).
  { simpl Coordinator.handle. rewrite loadKey_unfold. cbv zeta.
    rewrite (getItem_unreachable B Coordinator.STORAGE_KEY
               (Coordinator.storage (Coordinator.boot p ps)) Hgone).
    rewrite (memory_or_null_plain _ _ STORAGE_KEY_plain).
    change (SafeStorage.memoryStore
              (Coordinator.storage (Coordinator.boot p ps)))
      with (@empty (gmap string string) _).
    by rewrite lookup_empty. }
  change after
    with (fst (Coordinator.handle B E Coordinator.TimersFire
                 (fst (Coordinator.handle B E Coordinator.Mount
                         (Coordinator.boot p ps))))).
  rewrite Hmount. by repeat split.
Qed.

Lemma fresh_page_without_storage_opens_settings_witness :
  App.isSettingsOpen
    (Coordinator.core
       (Coordinator.view
          (Coordinator.handle_all SafeStorage.blocked_browser
             (Stub.scripted [])
             [Coordinator.Mount; Coordinator.TimersFire]
             (Coordinator.boot tt 0%nat))))
  = true.
Proof.
  refine (proj1 (fresh_page_without_storage_opens_settings
                   SafeStorage.blocked_browser (Stub.scripted []) tt 0%nat
                   _)).
  right. intros []. exists tt. right. by exists SafeStorage.securityError.
Defined.

(** X23. What refreshing the topics does.  With a key present, when the
    service returns a list (the provider's or the built-in one) the
    topics become that list and the active theme is cleared; when the
    service throws, the topics and the active theme stay as they are.
    The prompt and the key are untouched.  Without a key the handler
    only opens the settings dialog and asks nothing of the service. *)
Theorem refreshTopics_outcome {P Client PS : Type}
    (B : SafeStorage.Browser P) (E : GeminiService.Env Client PS)
    (sys : Coordinator.System P Client PS) :
  let suggested :=
    GeminiService.generateTopicSuggestions E (Coordinator.service sys) in
  let after := fst (Coordinator.handle B E Coordinator.RefreshTopics sys) in
  (App.apiKey (Coordinator.core (Coordinator.view sys)) <> "" ->
   Coordinator.service after = fst suggested
   /\ Coordinator.core (Coordinator.view after)
      = Coordinator.core (Coordinator.view sys)
   /\ match snd suggested with
      | Normal newTopics =>
          Coordinator.topics (Coordinator.view after) = newTopics
          /\ Coordinator.activeTheme (Coordinator.view after) = ""
      | Throw _ =>
          Coordinator.topics (Coordinator.view after)
          = Coordinator.topics (Coordinator.view sys)
          /\ Coordinator.activeTheme (Coordinator.view after)
             = Coordinator.activeTheme (Coordinator.view sys)
      end)
  /\
  (App.apiKey (Coordinator.core (Coordinator.view sys)) = "" ->
   after
   = {| Coordinator.view :=
          Coordinator.setIsSettingsOpen true (Coordinator.view sys);
        Coordinator.modal := Coordinator.modal sys;
        Coordinator.storage := Coordinator.storage sys;
        Coordinator.service := Coordinator.service sys;
        Coordinator.timers := Coordinator.timers sys |}).
Proof.
  intros suggested after. unfold after. simpl Coordinator.handle.
  rewrite refreshTopics_spec. cbv zeta. fold suggested. split.
  - intros Hkey. rewrite (nonempty_true _ Hkey). simpl.
    split; [reflexivity |]. by destruct (snd suggested).
  - intros Hkey. by rewrite Hkey.
Qed.

Lemma refreshTopics_outcome_witness :
  Coordinator.topics
    (Coordinator.view
       (fst (Coordinator.handle SafeStorage.blocked_browser
               (Stub.scripted []) Coordinator.RefreshTopics
               (Coordinator.handle_all SafeStorage.blocked_browser
                  (Stub.scripted
                     [Stub.at_tick 1 (Normal (Stub.text_response "ok"))])
                  [Coordinator.TypeKey "abc123"; Coordinator.Save]
                  (Coordinator.boot tt 0%nat)))))
  = GeminiService.fallback_topics.
Proof.
  refine (proj1 (proj2 (proj2 (proj1
            (refreshTopics_outcome SafeStorage.blocked_browser
               (Stub.scripted [])
               (Coordinator.handle_all SafeStorage.blocked_browser
                  (Stub.scripted
                     [Stub.at_tick 1 (Normal (Stub.text_response "ok"))])
                  [Coordinator.TypeKey "abc123"; Coordinator.Save]
                  (Coordinator.boot tt 0%nat))) _)))).
  vm_compute. discriminate.
Defined.

(** X24. What the three prompt handlers do.  With a key present, choosing
    a topic from the select makes it the active theme and empties the
    custom topic; submitting a custom topic that is not blank makes it
    the active theme as typed, untrimmed; rewriting keeps the active
    theme.  Each then asks the service for a prompt for that theme: the
    prompt field takes what the service returns, and stays as it was when
    the service throws, although the active theme has already changed.
    A blank custom topic and an empty active theme ask nothing and change
    nothing. *)
Theorem prompt_handlers_outcome {P Client PS : Type}
    (B : SafeStorage.Browser P) (E : GeminiService.Env Client PS)
    (sys : Coordinator.System P Client PS) :
  App.apiKey (Coordinator.core (Coordinator.view sys)) <> "" ->
  let written := fun (theme : string) (after : Coordinator.System P Client PS) =>
    Coordinator.service after
    = fst (GeminiService.generateCreativePrompt E theme
             (Coordinator.service sys))
    /\ App.prompt (Coordinator.core (Coordinator.view after))
       = match snd (GeminiService.generateCreativePrompt E theme
                      (Coordinator.service sys)) with
         | Normal newPrompt => newPrompt
         | Throw _ => App.prompt (Coordinator.core (Coordinator.view sys))
         end in
  (forall topic,
     topic <> "" ->
     let after :=
       fst (Coordinator.handle B E (Coordinator.SelectPreset topic) sys) in
     Coordinator.activeTheme (Coordinator.view after) = topic
     /\ Coordinator.customTopic (Coordinator.view after) = ""
     /\ written topic after)
  /\
  (let after :=
     fst (Coordinator.handle B E Coordinator.SubmitCustomTopic sys) in
   let typed := Coordinator.customTopic (Coordinator.view sys) in
   (trim typed <> "" ->
    Coordinator.activeTheme (Coordinator.view after) = typed
    /\ Coordinator.customTopic (Coordinator.view after) = typed
    /\ written typed after)
   /\ (trim typed = "" -> after = sys))
  /\
  (let after := fst (Coordinator.handle B E Coordinator.RefreshPrompt sys) in
   let theme := Coordinator.activeTheme (Coordinator.view sys) in
   (theme <> "" ->
    Coordinator.activeTheme (Coordinator.view after) = theme
    /\ written theme after)
   /\ (theme = "" -> after = sys)).
Proof.
  intros Hkey written. apply nonempty_true in Hkey.
  split; [| split].
  - intros topic Htopic after. unfold after, written.
    simpl Coordinator.handle.
    rewrite handlePresetTopicSelect_spec, Hkey, (nonempty_true _ Htopic).
    rewrite craft_spec. cbv zeta. simpl.
    by destruct (snd (GeminiService.generateCreativePrompt E topic
                        (Coordinator.service sys))).
  - cbv zeta. simpl Coordinator.handle.
    rewrite handleCustomTopicSubmit_spec, Hkey. split.
    + intros Htyped. rewrite (nonempty_true _ Htyped).
      rewrite craft_spec. cbv zeta. unfold written. simpl.
      by destruct (snd (GeminiService.generateCreativePrompt E _
                          (Coordinator.service sys))).
    + by intros ->.
  - cbv zeta. simpl Coordinator.handle.
    rewrite refreshPrompt_spec, Hkey. split.
    + intros Htheme. rewrite (nonempty_true _ Htheme).
      rewrite craft_spec. cbv zeta. unfold written. simpl.
      by destruct (snd (GeminiService.generateCreativePrompt E _
                          (Coordinator.service sys))).
    + by intros ->.
Qed.

Lemma prompt_handlers_outcome_witness :
  Coordinator.activeTheme
    (Coordinator.view
       (fst (Coordinator.handle SafeStorage.blocked_browser
               (Stub.scripted []) Coordinator.SubmitCustomTopic
               (Coordinator.handle_all SafeStorage.blocked_browser
                  (Stub.scripted
                     [Stub.at_tick 1 (Normal (Stub.text_response "ok"))])
                  [ Coordinator.TypeKey "abc123"; Coordinator.Save;
                    Coordinator.TypeCustomTopic " rainy city " ]
                  (Coordinator.boot tt 0%nat)))))
  = " rainy city ".
Proof.
  refine (proj1 (proj1 (proj1 (proj2
            (prompt_handlers_outcome SafeStorage.blocked_browser
               (Stub.scripted [])
               (Coordinator.handle_all SafeStorage.blocked_browser
                  (Stub.scripted
                     [Stub.at_tick 1 (Normal (Stub.text_response "ok"))])
                  [ Coordinator.TypeKey "abc123"; Coordinator.Save;
                    Coordinator.TypeCustomTopic " rainy city " ]
                  (Coordinator.boot tt 0%nat)) _))) _)).
  - vm_compute. discriminate.
  - vm_compute. discriminate.
Defined.

(** X25. Remix, then generate.  With a key present and a client armed,
    starting a remix from an image whose prompt is not blank and then
    generating closes the preview, puts the image's prompt in the prompt
    field and sends four requests for that prompt with the image's URL as
    the reference.  If the set is made the remix source is cleared; if it
    fails the remix source stays, so that generating again remixes the
    same image. *)
Theorem remix_then_generate {P Client PS : Type}
    (B : SafeStorage.Browser P) (E : GeminiService.Env Client PS)
    (sys : Coordinator.System P Client PS)
    (image : Types.GeneratedImage) (ai : Client) :
  App.apiKey (Coordinator.core (Coordinator.view sys)) <> "" ->
  trim (Types.prompt image) <> "" ->
  GeminiService.genAI (Coordinator.service sys) = Some ai ->
  let after :=
    Coordinator.handle_all B E
      [Coordinator.RemixStart image; Coordinator.Generate] sys in
  let settled :=
    GeminiService.generateWallpapers E (Types.prompt image)
      (Some (Types.url image)) (Coordinator.service sys) in
  GeminiService.sent (Coordinator.service after)
  = GeminiService.sent (Coordinator.service sys)
    ++ replicate 4
         (GeminiService.image_request (Types.prompt image)
            (Some (Types.url image)))
  /\ Coordinator.selectedImage (Coordinator.view after) = None
  /\ App.prompt (Coordinator.core (Coordinator.view after))
     = Types.prompt image
  /\ match snd settled with
     | Normal generatedImages =>
         App.images (Coordinator.core (Coordinator.view after))
         = generatedImages
         /\ App.remixSource (Coordinator.core (Coordinator.view after))
            = None
     | Throw _ =>
         App.images (Coordinator.core (Coordinator.view after)) = []
         /\ App.remixSource (Coordinator.core (Coordinator.view after))
            = Some image
     end.
Proof.
  intros Hkey Hprompt Harmed after settled.
  apply nonempty_true in Hkey. apply nonempty_true in Hprompt.
  pose proof (perform_sent E
                (Session.GenerateWallpapers (Types.prompt image)
                   (Some (Types.url image)))
                (Coordinator.service sys)) as Hsent.
  unfold Traffic.is_armed in Hsent. rewrite Harmed in Hsent.
  simpl in Hsent. unfold bind in Hsent. fold settled in Hsent.
  unfold after, Coordinator.handle_all. simpl.
  unfold Coordinator.handleGenerate, App.handleGenerate. simpl.
  rewrite handleGenerate_start_guards by (simpl; assumption).
  simpl. fold settled.
  destruct settled as [w' [generatedImages | err]]; simpl in *;
    by repeat split.
Qed.

Lemma remix_then_generate_witness :
  let image :=
    {| Types.id := "1700000000000-0";
       Types.url := "data:image/png;base64,QQ==";
       Types.prompt := "sunset"; Types.createdAt := 1700000000001 |} in
  Coordinator.selectedImage
    (Coordinator.view
       (Coordinator.handle_all SafeStorage.blocked_browser (Stub.scripted [])
          [Coordinator.RemixStart image; Coordinator.Generate]
          (Coordinator.handle_all SafeStorage.blocked_browser
             (Stub.scripted
                [Stub.at_tick 1 (Normal (Stub.text_response "ok"))])
             [ Coordinator.TypeKey "abc123"; Coordinator.Save;
               Coordinator.SelectImage image ]
             (Coordinator.boot tt 0%nat))))
  = None.
Proof.
  intros image.
  refine (proj1 (proj2
            (remix_then_generate SafeStorage.blocked_browser
               (Stub.scripted [])
               (Coordinator.handle_all SafeStorage.blocked_browser
                  (Stub.scripted
                     [Stub.at_tick 1 (Normal (Stub.text_response "ok"))])
                  [ Coordinator.TypeKey "abc123"; Coordinator.Save;
                    Coordinator.SelectImage image ]
                  (Coordinator.boot tt 0%nat))
               image "abc123" _ _ _))).
  - vm_compute. discriminate.
  - vm_compute. discriminate.
  - vm_compute. reflexivity.
Defined.
